(** * Verification of the diff tokenizer and the LLM response pipeline of
    ai-code-review ([codereview/git_utils.py], [codereview/reviewer.py]).

    Python [str] values are modelled as lists of Unicode code points
    ([list Z]); the Python builtins the code relies on ([str.strip],
    [str.split], [str.startswith], [in], [json.loads], [int], [float])
    are given executable definitions below. *)

From Stdlib Require Import ZArith List Bool Ascii String Lia.
From Stdlib Require Import Permutation Sorted.
Import ListNotations.
Open Scope Z_scope.
#[local] Set Warnings "-register-all".
#[local] Set Warnings "-abstract-large-number".

(* ================================================================= *)
(** ** Python strings *)

Module PyStr.

(** A Python [str]: its sequence of code points. *)
Definition pystr := list Z.

(** Literal helper: the code points of an ASCII Rocq string. *)
Definition s2l (s : string) : pystr :=
  map (fun a => Z.of_N (N_of_ascii a)) (list_ascii_of_string s).

(** Same, with every single quote turned into a double quote; used to
    write JSON texts. *)
Definition jtxt (s : string) : pystr :=
  map (fun z => if z =? 39 then 34 else z) (s2l s).

Fixpoint str_eqb (a b : pystr) : bool :=
  match a, b with
  | [], [] => true
  | x :: a', y :: b' => (x =? y) && str_eqb a' b'
  | _, _ => false
  end.

(** [s.startswith(p)] *)
Fixpoint startswith (s p : pystr) : bool :=
  match p, s with
  | [], _ => true
  | x :: p', y :: s' => (x =? y) && startswith s' p'
  | _ :: _, [] => false
  end.

(** [p in s] *)
Fixpoint contains (s p : pystr) : bool :=
  match s with
  | [] => startswith [] p
  | _ :: s' => startswith s p || contains s' p
  end.

(** [str.isspace] on one code point (the Unicode White_Space characters
    Python reports as spaces). *)
Definition py_isspace (c : Z) : bool :=
  ((9 <=? c) && (c <=? 13)) || ((28 <=? c) && (c <=? 32)) ||
  (c =? 133) || (c =? 160) || (c =? 5760) ||
  ((8192 <=? c) && (c <=? 8202)) || (c =? 8232) || (c =? 8233) ||
  (c =? 8239) || (c =? 8287) || (c =? 12288).

Fixpoint lstrip_by (f : Z -> bool) (s : pystr) : pystr :=
  match s with
  | c :: s' => if f c then lstrip_by f s' else s
  | [] => []
  end.

Definition rstrip_by (f : Z -> bool) (s : pystr) : pystr :=
  rev (lstrip_by f (rev s)).

(** [s.strip()] *)
Definition strip (s : pystr) : pystr :=
  rstrip_by py_isspace (lstrip_by py_isspace s).

(** [s.rstrip(chars)] *)
Definition rstrip_chars (chars s : pystr) : pystr :=
  rstrip_by (fun c => existsb (Z.eqb c) chars) s.

(** [s.lower()], on ASCII letters.  The only use of [lower] in the code is
    the [Severity] lookup, whose names are ASCII; the non-ASCII code points
    whose Python lowercase contains an ASCII letter are U+0130 (to "i"
    followed by U+0307) and U+212A (to "k", absent from every name), so the
    outcome of that lookup is the one Python computes. *)
Definition lower (s : pystr) : pystr :=
  map (fun c => if (65 <=? c) && (c <=? 90) then c + 32 else c) s.

(** [s.split(sep)] for a non-empty [sep]: a left-to-right scan; after a
    match the remaining [length sep - 1] code points of the separator are
    skipped ([k] counts them). *)
Fixpoint split_scan (sep s cur : pystr) (k : nat) : list pystr :=
  match s with
  | [] => [rev cur]
  | c :: s' =>
      match k with
      | S k' => split_scan sep s' cur k'
      | O =>
          if startswith s sep
          then rev cur :: split_scan sep s' [] (pred (List.length sep))
          else split_scan sep s' (c :: cur) O
      end
  end.

Definition split (s sep : pystr) : list pystr := split_scan sep s [] O.

(** [parts[-1]] for a list that is never empty here. *)
Definition last_part (ps : list pystr) : pystr := last ps [].

End PyStr.

Import PyStr.

(* ================================================================= *)
(** ** Exceptions and the error monad *)

(** The reasons of the [RuntimeError]s raised by [call_llm] and its
    helpers. *)
Inductive runtime_reason :=
| NoBaseUrl                (* "No API base URL configured" *)
| NoModel                  (* "No model configured" *)
| EmptyChoices             (* "API returned empty choices array" *)
| BadStructure             (* "Unexpected API response structure" *)
| SSLFailed                (* "SSL verification failed" *)
| ApiError (status : Z)    (* "API error {status}: {body}" *)
| ConnectionFailed         (* "Connection failed" *)
| TimedOut                 (* "Request timed out after 60 seconds" *)
| InvalidJson.             (* "API returned invalid JSON" *)

(** Python exceptions that reach the code. *)
Inductive exn :=
| AttributeError
| TypeError
| ValueError
| OverflowError
| KeyError
| IndexError
| JSONDecodeError
| UnicodeEncodeError
| RuntimeError (r : runtime_reason)
| RequestException.  (* other [requests] errors, e.g. [RetryError] *)

Inductive result (A : Type) :=
| Ok (a : A)
| Raise (e : exn).
Arguments Ok {A} a.
Arguments Raise {A} e.

Definition bind {A B} (m : result A) (k : A -> result B) : result B :=
  match m with Ok a => k a | Raise e => Raise e end.

Notation "x <- m ;; k" := (bind m (fun x => k))
  (at level 61, m at next level, right associativity).

(* ================================================================= *)
(** ** Python floats and JSON values *)

Module Json.

(** A Python [float] (IEEE binary64): a finite value
    [(-1)^neg * m * 2^e], an infinity, or NaN. *)
Inductive pyfloat :=
| FFinite (neg : bool) (m e : Z)
| FInf (neg : bool)
| FNaN.

(** Rounding half to even of [a / b], for [a >= 0] and [b > 0]. *)
Definition round_half_even (a b : Z) : Z :=
  let (q, r) := Z.div_eucl a b in
  if 2 * r <? b then q
  else if b <? 2 * r then q + 1
  else if Z.even q then q else q + 1.

(** [num / den * 2^(-e)], scaled to integers. *)
Definition scale_num (num e : Z) : Z := num * 2 ^ (Z.max 0 (- e)).
Definition scale_den (den e : Z) : Z := den * 2 ^ (Z.max 0 e).

(** Correctly rounded conversion of the rational [num / den] (with
    [num >= 0], [den > 0]) to binary64, round half to even, with
    subnormals and overflow to infinity: what [float(text)] computes for a
    decimal text. *)
Definition to_double (neg : bool) (num den : Z) : pyfloat :=
  if num =? 0 then FFinite neg 0 0 else
  let e0 := Z.log2 num - Z.log2 den - 52 in
  let e1 := if 2 ^ 52 * scale_den den e0 <=? scale_num num e0
            then e0 else e0 - 1 in
  let e := Z.max e1 (-1074) in
  let m := round_half_even (scale_num num e) (scale_den den e) in
  let '(m, e) := if m =? 2 ^ 53 then (2 ^ 52, e + 1) else (m, e) in
  if 971 <? e then FInf neg else FFinite neg m e.

(** The value of a decimal text [digits * 10^exp10]. *)
Definition decimal_to_double (neg : bool) (digits exp10 : Z) : pyfloat :=
  if 0 <=? exp10 then to_double neg (digits * 10 ^ exp10) 1
  else to_double neg digits (10 ^ (- exp10)).

(** [int(x)] for a float: truncation toward zero. *)
Definition float_to_int (f : pyfloat) : result Z :=
  match f with
  | FNaN => Raise ValueError         (* cannot convert float NaN *)
  | FInf _ => Raise OverflowError    (* cannot convert float infinity *)
  | FFinite neg m e =>
      let t := if 0 <=? e then m * 2 ^ e else m / 2 ^ (- e) in
      Ok (if neg then - t else t)
  end.

Definition float_is_zero (f : pyfloat) : bool :=
  match f with FFinite _ m _ => m =? 0 | _ => false end.

(** The values [json.loads] builds: [None], [bool], [int], [float],
    [str], [list], [dict] (its key/value pairs in source order). *)
Inductive json :=
| JNull
| JBool (b : bool)
| JInt (z : Z)
| JFloat (f : pyfloat)
| JStr (s : pystr)
| JArr (xs : list json)
| JObj (kvs : list (pystr * json)).

(** [d.get(k)] on a dict built from [kvs]: with duplicate keys the last
    value wins, as in [dict(pairs)]. *)
Fixpoint obj_get (kvs : list (pystr * json)) (k : pystr) : option json :=
  match kvs with
  | [] => None
  | (k', v) :: kvs' =>
      match obj_get kvs' k with
      | Some w => Some w
      | None => if str_eqb k' k then Some v else None
      end
  end.

(** [d.get(k, default)] *)
Definition obj_get_default (kvs : list (pystr * json)) (k : pystr)
    (default : json) : json :=
  match obj_get kvs k with Some v => v | None => default end.

(** Python truthiness ([bool(v)]). *)
Definition truthy (v : json) : bool :=
  match v with
  | JNull => false
  | JBool b => b
  | JInt z => negb (z =? 0)
  | JFloat f => negb (float_is_zero f)
  | JStr s => negb (str_eqb s [])
  | JArr xs => negb (Nat.eqb (List.length xs) 0)
  | JObj kvs => negb (Nat.eqb (List.length kvs) 0)
  end.

End Json.

Import Json.

(* ================================================================= *)
(** ** [json.loads] *)

(** The decoder of CPython's [json] module (its C scanner, strict mode).
    [None] stands for [JSONDecodeError]. *)
Module JsonDecode.

Definition json_ws (c : Z) : bool :=
  (c =? 32) || (c =? 9) || (c =? 10) || (c =? 13).

Fixpoint skip_ws (s : pystr) : pystr :=
  match s with
  | c :: s' => if json_ws c then skip_ws s' else s
  | [] => []
  end.

Definition is_digit (c : Z) : bool := (48 <=? c) && (c <=? 57).

Definition hex_val (c : Z) : option Z :=
  if is_digit c then Some (c - 48)
  else if (97 <=? c) && (c <=? 102) then Some (c - 87)
  else if (65 <=? c) && (c <=? 70) then Some (c - 55)
  else None.

Definition hex4 (a b c d : Z) : option Z :=
  match hex_val a, hex_val b, hex_val c, hex_val d with
  | Some a, Some b, Some c, Some d => Some (((a * 16 + b) * 16 + c) * 16 + d)
  | _, _, _, _ => None
  end.

Definition simple_escape (e : Z) : option Z :=
  if e =? 34 then Some 34 else if e =? 92 then Some 92
  else if e =? 47 then Some 47 else if e =? 98 then Some 8
  else if e =? 102 then Some 12 else if e =? 110 then Some 10
  else if e =? 114 then Some 13 else if e =? 116 then Some 9
  else None.

(** [scanstring]: the body of a string literal after its opening quote;
    returns the decoded text and the rest of the input. *)
Fixpoint scan_str (s acc : pystr) : option (pystr * pystr) :=
  match s with
  | [] => None
  | c :: s' =>
      if c =? 34 then Some (rev acc, s')
      else if c =? 92 then
        match s' with
        | [] => None
        | e :: s'' =>
            if e =? 117 then
              match s'' with
              | h1 :: h2 :: h3 :: h4 :: r =>
                  match hex4 h1 h2 h3 h4 with
                  | None => None
                  | Some u =>
                      if (55296 <=? u) && (u <=? 56319) then
                        match r with
                        | b :: v :: g1 :: g2 :: g3 :: g4 :: r' =>
                            if (b =? 92) && (v =? 117) then
                              match hex4 g1 g2 g3 g4 with
                              | None => None
                              | Some u2 =>
                                  if (56320 <=? u2) && (u2 <=? 57343)
                                  then scan_str r'
                                         (65536 + (u - 55296) * 1024
                                          + (u2 - 56320) :: acc)
                                  else scan_str r (u :: acc)
                              end
                            else scan_str r (u :: acc)
                        | _ => scan_str r (u :: acc)
                        end
                      else scan_str r (u :: acc)
                  end
              | _ => None
              end
            else
              match simple_escape e with
              | Some ch => scan_str s'' (ch :: acc)
              | None => None
              end
        end
      else if c <? 32 then None
      else scan_str s' (c :: acc)
  end.

Fixpoint span_digits (s : pystr) : pystr * pystr :=
  match s with
  | c :: s' =>
      if is_digit c then let '(ds, r) := span_digits s' in (c :: ds, r)
      else ([], s)
  | [] => ([], [])
  end.

Definition digits_value (ds : pystr) : Z :=
  fold_left (fun a d => a * 10 + (d - 48)) ds 0.

(** The optional fraction [.digits] (a dot not followed by a digit ends
    the number). *)
Definition frac_part (s : pystr) : option pystr * pystr :=
  match s with
  | d :: (x :: _) as t =>
      if (d =? 46) && is_digit x then
        let '(ds, r) := span_digits t in (Some ds, r)
      else (None, s)
  | _ => (None, s)
  end.

(** The optional exponent [e[+-]digits] (backtracks if no digit). *)
Definition exp_part (s : pystr) : option Z * pystr :=
  match s with
  | e :: t =>
      if (e =? 101) || (e =? 69) then
        let '(neg, t') :=
          match t with
          | c :: t'' => if c =? 45 then (true, t'')
                        else if c =? 43 then (false, t'') else (false, t)
          | [] => (false, t)
          end in
        match span_digits t' with
        | ([], _) => (None, s)
        | (ds, r) => (Some (if neg then - digits_value ds else digits_value ds), r)
        end
      else (None, s)
  | [] => (None, s)
  end.

(** [_match_number]: an [int] literal, or a [float] when a fraction or an
    exponent is present. *)
Definition scan_number (s : pystr) : option (json * pystr) :=
  let '(neg, s1) :=
    match s with
    | c :: t => if c =? 45 then (true, t) else (false, s)
    | [] => (false, s)
    end in
  let '(ip, r1) :=
    match s1 with
    | c :: t =>
        if c =? 48 then ([c], t)
        else if (49 <=? c) && (c <=? 57) then
          let '(ds, r) := span_digits t in (c :: ds, r)
        else ([], s1)
    | [] => ([], s1)
    end in
  match ip with
  | [] => None
  | _ =>
      let '(fp, r2) := frac_part r1 in
      let '(ex, r3) := exp_part r2 in
      match fp, ex with
      | None, None =>
          let v := digits_value ip in Some (JInt (if neg then - v else v), r3)
      | _, _ =>
          let fd := match fp with Some f => f | None => [] end in
          let e10 := match ex with Some x => x | None => 0 end in
          Some (JFloat (decimal_to_double neg (digits_value (ip ++ fd))
                          (e10 - Z.of_nat (List.length fd))), r3)
      end
  end.

(** Keyword literal [w] at the head of [s]. *)
Definition keyword (s : pystr) (w : string) (v : json) : option (json * pystr) :=
  if startswith s (s2l w) then Some (v, skipn (String.length w) s) else None.

(** [scan_once], [_parse_object] and [_parse_array]; [n] bounds the
    recursion (each nested call consumes input, and [json_loads] gives
    twice the input length). *)
Fixpoint pvalue (n : nat) (s : pystr) : option (json * pystr) :=
  match n with
  | O => None
  | S n' =>
      match s with
      | [] => None
      | c :: t =>
          if c =? 34 then
            match scan_str t [] with
            | Some (str, r) => Some (JStr str, r)
            | None => None
            end
          else if c =? 123 then
            match skip_ws t with
            | d :: r => if d =? 125 then Some (JObj [], r)
                        else pmembers n' (d :: r) []
            | [] => None
            end
          else if c =? 91 then
            match skip_ws t with
            | d :: r => if d =? 93 then Some (JArr [], r)
                        else pelems n' (d :: r) []
            | [] => None
            end
          else if c =? 110 then keyword s "null" JNull
          else if c =? 116 then keyword s "true" (JBool true)
          else if c =? 102 then keyword s "false" (JBool false)
          else if c =? 78 then keyword s "NaN" (JFloat FNaN)
          else if c =? 73 then keyword s "Infinity" (JFloat (FInf false))
          else if (c =? 45) && startswith s (s2l "-Infinity") then
            Some (JFloat (FInf true), skipn 9 s)
          else scan_number s
      end
  end
with pmembers (n : nat) (s : pystr) (acc : list (pystr * json))
    : option (json * pystr) :=
  match n with
  | O => None
  | S n' =>
      match s with
      | q :: t =>
          if negb (q =? 34) then None else
          match scan_str t [] with
          | None => None
          | Some (key, r) =>
              match skip_ws r with
              | col :: r1 =>
                  if negb (col =? 58) then None else
                  match pvalue n' (skip_ws r1) with
                  | None => None
                  | Some (v, r2) =>
                      match skip_ws r2 with
                      | d :: r3 =>
                          if d =? 125 then Some (JObj (rev ((key, v) :: acc)), r3)
                          else if d =? 44 then pmembers n' (skip_ws r3) ((key, v) :: acc)
                          else None
                      | [] => None
                      end
                  end
              | [] => None
              end
          end
      | [] => None
      end
  end
with pelems (n : nat) (s : pystr) (acc : list json) : option (json * pystr) :=
  match n with
  | O => None
  | S n' =>
      match pvalue n' s with
      | None => None
      | Some (v, r) =>
          match skip_ws r with
          | d :: r1 =>
              if d =? 93 then Some (JArr (rev (v :: acc)), r1)
              else if d =? 44 then pelems n' (skip_ws r1) (v :: acc)
              else None
          | [] => None
          end
      end
  end.

(** [json.loads(s)] *)
Definition json_loads (s : pystr) : result json :=
  match pvalue (2 * List.length s + 2) (skip_ws s) with
  | Some (v, r) =>
      match skip_ws r with [] => Ok v | _ => Raise JSONDecodeError end
  | None => Raise JSONDecodeError
  end.

End JsonDecode.

Import JsonDecode.

(* ================================================================= *)
(** ** [reviewer.py]: response parsing *)

Module Reviewer.

Inductive Severity := CRITICAL | WARNING | INFO | STYLE.

(** [Severity(value)]: lookup of an enum member by its value. *)
Definition severity_of_value (s : pystr) : option Severity :=
  if str_eqb s (s2l "critical") then Some CRITICAL
  else if str_eqb s (s2l "warning") then Some WARNING
  else if str_eqb s (s2l "info") then Some INFO
  else if str_eqb s (s2l "style") then Some STYLE
  else None.

(** An injective code of a JSON value, tagging the code points of texts by
    their length. *)
Fixpoint json_code (v : json) : list Z :=
  match v with
  | JNull => [0]
  | JBool b => [1; if b then 1 else 0]
  | JInt z => [2; z]
  | JFloat FNaN => [3; 0]
  | JFloat (FInf neg) => [3; 1; if neg then 1 else 0]
  | JFloat (FFinite neg m e) => [3; 2; if neg then 1 else 0; m; e]
  | JStr s => 4 :: Z.of_nat (List.length s) :: s
  | JArr xs => 5 :: Z.of_nat (List.length xs) :: flat_map json_code xs
  | JObj kvs =>
      6 :: Z.of_nat (List.length kvs)
        :: flat_map (fun kv => Z.of_nat (List.length (fst kv)) :: fst kv
                                 ++ json_code (snd kv)) kvs
  end.

(** [str(v)] (and [f"{v}"]).  For a [str] this is [v] itself; for any
    other value [str] is total and gives the [repr] of [None], a number, a
    list or a dict.  That text is never inspected by the code below, so it
    is represented by the code of [v] behind the marker [-1], which is not
    a code point. *)
Definition py_str (v : json) : pystr :=
  match v with
  | JStr s => s
  | _ => -1 :: json_code v
  end.

(** [str(v).strip()]: the [repr] of a non-[str] value has no surrounding
    white space. *)
Definition str_strip (v : json) : pystr :=
  match v with
  | JStr s => strip s
  | _ => py_str v
  end.

Record Issue := mkIssue {
  severity : Severity;
  title : pystr;
  description : pystr;
  file : pystr;
  line : option json;
  suggestion : pystr
}.

Record ReviewResult := mkReviewResult {
  summary : pystr;
  issues : list Issue;
  score : Z;
  files_reviewed : Z;
  lines_reviewed : Z
}.

(** [_extract_json_from_response] *)
Definition _extract_json_from_response (raw : pystr) : pystr :=
  let raw := strip raw in
  if contains raw (s2l "```json") then
    strip (nth 0 (split (nth 1 (split raw (s2l "```json")) []) (s2l "```")) [])
  else if contains raw (s2l "```") then
    strip (nth 0 (split (nth 1 (split raw (s2l "```")) []) (s2l "```")) [])
  else raw.

(** [_parse_severity]: [Severity(value.lower().strip())]; a value without
    [lower] (AttributeError) or an unknown name (ValueError) gives INFO. *)
Definition _parse_severity (value : json) : Severity :=
  match value with
  | JStr s =>
      match severity_of_value (strip (lower s)) with
      | Some sev => sev
      | None => INFO
      end
  | _ => INFO
  end.

(** [isinstance(v, int)]: [bool] is a subclass of [int]. *)
Definition is_int (v : json) : bool :=
  match v with JInt _ | JBool _ => true | _ => false end.

(** [_parse_issue] *)
Definition _parse_issue (item : list (pystr * json)) : Issue :=
  {| severity := _parse_severity (obj_get_default item (s2l "severity") (JStr (s2l "info")));
     title := str_strip (obj_get_default item (s2l "title") (JStr (s2l "Untitled")));
     description := str_strip (obj_get_default item (s2l "description") (JStr []));
     file := str_strip (obj_get_default item (s2l "file") (JStr []));
     line := match obj_get item (s2l "line") with
             | Some v => if is_int v then Some v else None
             | None => None
             end;
     suggestion := str_strip (obj_get_default item (s2l "suggestion") (JStr [])) |}.

(** The keys of a dict built from [kvs], in first-insertion order. *)
Fixpoint dict_keys_aux (kvs : list (pystr * json)) (seen : list pystr) : list pystr :=
  match kvs with
  | [] => []
  | (k, _) :: kvs' =>
      if existsb (str_eqb k) seen then dict_keys_aux kvs' seen
      else k :: dict_keys_aux kvs' (k :: seen)
  end.

(** [for item in v]: a list yields its items, a str its characters, a
    dict its keys; other values are not iterable. *)
Definition py_iter (v : json) : result (list json) :=
  match v with
  | JArr xs => Ok xs
  | JStr s => Ok (map (fun c => JStr [c]) s)
  | JObj kvs => Ok (map JStr (dict_keys_aux kvs []))
  | _ => Raise TypeError
  end.

Definition clamp_score (z : Z) : Z := Z.max 0 (Z.min 10 z).

(** [max(0, min(10, int(score_raw))) if isinstance(score_raw, (int, float))
    else 0] *)
Definition score_of (score_raw : json) : result Z :=
  match score_raw with
  | JInt z => Ok (clamp_score z)
  | JBool b => Ok (clamp_score (if b then 1 else 0))
  | JFloat f => z <- float_to_int f ;; Ok (clamp_score z)
  | _ => Ok 0
  end.

Definition fallback_result (raw : pystr) : ReviewResult :=
  {| summary := s2l "Failed to parse review response.";
     issues := [{| severity := INFO; title := s2l "Raw LLM Output";
                   description := firstn 500 raw; file := []; line := None;
                   suggestion := [] |}];
     score := 0; files_reviewed := 0; lines_reviewed := 0 |}.

(** [parse_review_response] *)
Definition parse_review_response (raw : pystr) : result ReviewResult :=
  let cleaned := _extract_json_from_response raw in
  match json_loads cleaned with
  | Raise JSONDecodeError => Ok (fallback_result raw)
  | Raise e => Raise e
  | Ok data =>
      match data with
      | JObj kvs =>
          items <- py_iter (obj_get_default kvs (s2l "issues") (JArr [])) ;;
          let issues := flat_map (fun it => match it with
                                            | JObj d => [_parse_issue d]
                                            | _ => []
                                            end) items in
          score <- score_of (obj_get_default kvs (s2l "score") (JInt 0)) ;;
          Ok {| summary := str_strip (obj_get_default kvs (s2l "summary")
                                        (JStr (s2l "No summary provided.")));
                issues := issues; score := score;
                files_reviewed := 0; lines_reviewed := 0 |}
      | _ => Raise AttributeError  (* [data.get]: no such attribute *)
      end
  end.

(* ----------------------------------------------------------------- *)
(** *** [int()] and [float()] on the configuration values *)

(** A PEP 515 digit part [digit (["_"] digit)*], the underscores removed
    (ASCII digits). *)
Fixpoint digitpart (s : pystr) (prev_digit : bool) : option pystr :=
  match s with
  | [] => if prev_digit then Some [] else None
  | c :: s' =>
      if is_digit c then option_map (cons c) (digitpart s' true)
      else if (c =? 95) && prev_digit then digitpart s' false
      else None
  end.

Definition take_sign (s : pystr) : bool * pystr :=
  match s with
  | c :: t => if c =? 45 then (true, t) else if c =? 43 then (false, t) else (false, s)
  | [] => (false, s)
  end.

(** [int(s)] for a [str] (base 10). *)
Definition int_of_str (s : pystr) : result Z :=
  let '(neg, t) := take_sign (strip s) in
  match digitpart t false with
  | Some ds => Ok (if neg then - digits_value ds else digits_value ds)
  | None => Raise ValueError
  end.

(** Split [s] at the first code point satisfying [f]. *)
Fixpoint break_at (f : Z -> bool) (s : pystr) : pystr * option pystr :=
  match s with
  | [] => ([], None)
  | c :: s' =>
      if f c then ([], Some s')
      else let '(a, b) := break_at f s' in (c :: a, b)
  end.

(** [float(s)] for a [str]: [inf], [infinity], [nan] in any case, or a
    decimal [digits[.digits][e[+-]digits]] with either digit part of the
    mantissa possibly empty but not both. *)
Definition float_of_str (s : pystr) : result pyfloat :=
  let '(neg, t) := take_sign (strip s) in
  let lt := lower t in
  if str_eqb lt (s2l "inf") || str_eqb lt (s2l "infinity") then Ok (FInf neg)
  else if str_eqb lt (s2l "nan") then Ok FNaN
  else
    let '(mant, ex) := break_at (fun c => (c =? 101) || (c =? 69)) t in
    let e10 := match ex with
               | None => Some 0
               | Some x =>
                   let '(eneg, x') := take_sign x in
                   option_map (fun ds => if eneg then - digits_value ds
                                         else digits_value ds)
                              (digitpart x' false)
               end in
    let '(ip, fp) := break_at (Z.eqb 46) mant in
    let ipd := match ip with [] => Some [] | _ => digitpart ip false end in
    let fpd := match fp with
               | None | Some [] => Some []
               | Some f => digitpart f false
               end in
    match ipd, fpd, e10 with
    | Some id, Some fd, Some e =>
        if Nat.eqb (List.length id + List.length fd) 0 then Raise ValueError
        else Ok (decimal_to_double neg (digits_value (id ++ fd))
                                   (e - Z.of_nat (List.length fd)))
    | _, _, _ => Raise ValueError
    end.

(** [int(v)] *)
Definition py_int (v : json) : result Z :=
  match v with
  | JInt z => Ok z
  | JBool b => Ok (if b then 1 else 0)
  | JFloat f => float_to_int f
  | JStr s => int_of_str s
  | _ => Raise TypeError
  end.

(** [float(v)]; an [int] too large for a double raises OverflowError. *)
Definition py_float (v : json) : result pyfloat :=
  match v with
  | JFloat f => Ok f
  | JInt z =>
      match to_double (z <? 0) (Z.abs z) 1 with
      | FInf _ => Raise OverflowError
      | f => Ok f
      end
  | JBool b => Ok (FFinite false (if b then 1 else 0) 0)
  | JStr s => float_of_str s
  | _ => Raise TypeError
  end.

(* ----------------------------------------------------------------- *)
(** *** [call_llm] *)

(** A configuration dict. *)
Definition Config := list (pystr * json).

Definition MAX_CACHE_SIZE : nat := 50.

(** [_validate_api_config]: [.rstrip("/")] on a non-[str] base URL raises
    AttributeError. *)
Definition _validate_api_config (config : Config) : result (pystr * json * json) :=
  match obj_get_default config (s2l "base_url") (JStr (s2l "https://api.openai.com/v1")) with
  | JStr b =>
      let base_url := rstrip_chars (s2l "/") b in
      let model := obj_get_default config (s2l "model") (JStr (s2l "gpt-3.5-turbo")) in
      let api_key := obj_get_default config (s2l "api_key") (JStr []) in
      if str_eqb base_url [] then Raise (RuntimeError NoBaseUrl)
      else if negb (truthy model) then Raise (RuntimeError NoModel)
      else Ok (base_url, model, api_key)
  | _ => Raise AttributeError
  end.

Definition is_surrogate (c : Z) : bool := (55296 <=? c) && (c <=? 57343).

(** [_get_cache_key]: the SHA-256 hex digest of the UTF-8 encoding of
    [f"{model}:{prompt}"].  The digest is represented by its preimage
    (digest collisions are not modelled); the encoding fails on a lone
    surrogate. *)
Definition _get_cache_key (prompt : pystr) (model : json) : result pystr :=
  let raw := py_str model ++ s2l ":" ++ prompt in
  if existsb is_surrogate raw then Raise UnicodeEncodeError else Ok raw.

(** [_build_headers] *)
Definition _build_headers (api_key : json) : list (pystr * pystr) :=
  [(s2l "Content-Type", s2l "application/json");
   (s2l "User-Agent", s2l "codereview/1.0.0")] ++
  (if truthy api_key then [(s2l "Authorization", s2l "Bearer " ++ py_str api_key)]
   else []).

(** [_build_payload] *)
Definition _build_payload (prompt : pystr) (model : json) (config : Config) : result json :=
  max_tokens <- py_int (obj_get_default config (s2l "max_tokens") (JInt 2048)) ;;
  temperature <- py_float (obj_get_default config (s2l "temperature")
                             (JFloat (decimal_to_double false 2 (-1)))) ;;
  Ok (JObj [(s2l "model", model);
            (s2l "messages", JArr [JObj [(s2l "role", JStr (s2l "user"));
                                         (s2l "content", JStr prompt)]]);
            (s2l "max_tokens", JInt max_tokens);
            (s2l "temperature", JFloat temperature)]).

(** [v[0]] and [v[k]] for a str key; [None] is a KeyError, IndexError or
    TypeError.  JSON dict keys are strs, so [d[0]] is a KeyError. *)
Definition index0 (v : json) : option json :=
  match v with
  | JArr (x :: _) => Some x
  | JStr (c :: _) => Some (JStr [c])
  | _ => None
  end.

Definition subscript (v : json) (k : pystr) : option json :=
  match v with JObj kvs => obj_get kvs k | _ => None end.

(** [_extract_response_text] *)
Definition _extract_response_text (data : json) : result json :=
  match subscript data (s2l "choices") with
  | None => Raise (RuntimeError BadStructure)
  | Some choices =>
      if negb (truthy choices) then Raise (RuntimeError EmptyChoices) else
      match index0 choices with
      | None => Raise (RuntimeError BadStructure)
      | Some c =>
          match subscript c (s2l "message") with
          | None => Raise (RuntimeError BadStructure)
          | Some m =>
              match subscript m (s2l "content") with
              | None => Raise (RuntimeError BadStructure)
              | Some content => Ok content
              end
          end
      end
  end.

(** The arguments of [_session.post(...)] ([timeout=60], [verify=True]
    are constant). *)
Record Request := mkRequest {
  url : pystr;
  json_body : json;
  headers : list (pystr * pystr)
}.

(** What [_session.post] (with its retry adapter) gives back. *)
Inductive PostOutcome :=
| PostResponse (status : Z) (body : pystr)
| PostSSLError
| PostConnectionError   (* includes ConnectTimeout *)
| PostTimeout           (* ReadTimeout *)
| PostOtherError.       (* e.g. RetryError once the retries are spent *)

(** The module-level state: [_response_cache] (insertion ordered) and the
    log of the requests sent over the network. *)
Record ClientState := mkClientState {
  cache : list (pystr * json);
  posts : list Request
}.

Fixpoint cache_lookup (c : list (pystr * json)) (k : pystr) : option json :=
  match c with
  | [] => None
  | (k', v) :: c' => if str_eqb k' k then Some v else cache_lookup c' k
  end.

Section Client.

(** The HTTP session, with its retry policy. *)
Variable session_post : Request -> PostOutcome.

(** [call_llm(prompt, config)] *)
Definition call_llm (prompt : pystr) (config : Config) (st : ClientState)
    : result json * ClientState :=
  match _validate_api_config config with
  | Raise e => (Raise e, st)
  | Ok (base_url, model, api_key) =>
  match _get_cache_key prompt model with
  | Raise e => (Raise e, st)
  | Ok cache_key =>
  match cache_lookup (cache st) cache_key with
  | Some v => (Ok v, st)
  | None =>
  let hdrs := _build_headers api_key in
  match _build_payload prompt model config with
  | Raise e => (Raise e, st)
  | Ok payload =>
  let req := {| url := base_url ++ s2l "/chat/completions";
                json_body := payload; headers := hdrs |} in
  let st1 := {| cache := cache st; posts := posts st ++ [req] |} in
  match session_post req with
  | PostSSLError => (Raise (RuntimeError SSLFailed), st1)
  | PostConnectionError => (Raise (RuntimeError ConnectionFailed), st1)
  | PostTimeout => (Raise (RuntimeError TimedOut), st1)
  | PostOtherError => (Raise RequestException, st1)
  | PostResponse status body =>
      (* [raise_for_status]; [e.response] is falsy for an error status, so
         the message always carries status 0 *)
      if (400 <=? status) && (status <? 600) then (Raise (RuntimeError (ApiError 0)), st1)
      else
      match json_loads body with
      | Raise _ => (Raise (RuntimeError InvalidJson), st1)
      | Ok data =>
      match _extract_response_text data with
      | Raise e => (Raise e, st1)
      | Ok content =>
          let c := if Nat.leb MAX_CACHE_SIZE (List.length (cache st))
                   then tl (cache st) else cache st in
          (Ok content, {| cache := c ++ [(cache_key, content)]; posts := posts st1 |})
      end
      end
  end
  end
  end
  end
  end.

End Client.

End Reviewer.

(* ================================================================= *)
(** ** [git_utils.py]: the diff tokenizer *)

Module GitUtils.

Record DiffHunk := mkDiffHunk {
  file : pystr;
  old_start : Z;
  new_start : Z;
  content : pystr;
  added_lines : list pystr;
  removed_lines : list pystr
}.

(** ["\n".join(xs)] *)
Definition join_nl (xs : list pystr) : pystr :=
  match xs with
  | [] => []
  | x :: xs' => x ++ List.concat (map (fun y => 10 :: y) xs')
  end.

(** [_finalize_hunk]: [if file and content]. *)
Definition _finalize_hunk (file : option pystr) (content added removed : list pystr)
    : option DiffHunk :=
  match file with
  | Some f =>
      if negb (str_eqb f []) && negb (Nat.eqb (List.length content) 0) then
        Some {| file := f; old_start := 0; new_start := 0;
                content := join_nl content;
                added_lines := added; removed_lines := removed |}
      else None
  | None => None
  end.

(** The local variables of the loop of [parse_diff]. *)
Record ParseState := mkParseState {
  hunks : list DiffHunk;
  current_file : option pystr;
  current_content : list pystr;
  added : list pystr;
  removed : list pystr
}.

Definition init_state : ParseState :=
  {| hunks := []; current_file := None; current_content := [];
     added := []; removed := [] |}.

(** [if hunk: hunks.append(hunk)] *)
Definition append_hunk (hs : list DiffHunk) (h : option DiffHunk) : list DiffHunk :=
  match h with Some h => hs ++ [h] | None => hs end.

(** One iteration of [for line in diff_text.split("\n")]. *)
Definition step (st : ParseState) (line : pystr) : ParseState :=
  let '{| hunks := hs; current_file := cf; current_content := cc;
          added := ad; removed := rm |} := st in
  if startswith line (s2l "diff --git") then
    let hs' := append_hunk hs (_finalize_hunk cf cc ad rm) in
    let parts := split line (s2l " b/") in
    {| hunks := hs';
       current_file := Some (if Nat.ltb 1 (List.length parts)
                             then last_part parts else s2l "unknown");
       current_content := []; added := []; removed := [] |}
  else if startswith line (s2l "@@") then
    {| hunks := hs; current_file := cf; current_content := cc ++ [line];
       added := ad; removed := rm |}
  else if startswith line (s2l "+") && negb (startswith line (s2l "+++")) then
    {| hunks := hs; current_file := cf; current_content := cc ++ [line];
       added := ad ++ [skipn 1 line]; removed := rm |}
  else if startswith line (s2l "-") && negb (startswith line (s2l "---")) then
    {| hunks := hs; current_file := cf; current_content := cc ++ [line];
       added := ad; removed := rm ++ [skipn 1 line] |}
  else
    {| hunks := hs; current_file := cf; current_content := cc ++ [line];
       added := ad; removed := rm |}.

(** [parse_diff] *)
Definition parse_diff (diff_text : pystr) : list DiffHunk :=
  let st := fold_left step (split diff_text [10]) init_state in
  append_hunk (hunks st)
    (_finalize_hunk (current_file st) (current_content st) (added st) (removed st)).

End GitUtils.

(* ================================================================= *)
(** ** [reviewer.py]: the entry point [review_code] *)

Module ReviewEntry.
Import Reviewer.

(** Literal helper for the prompt texts: a backquote stands for a double
    quote and [~] for an em dash (U+2014); neither occurs in the
    prompts. *)
Definition ptxt (s : string) : pystr :=
  map (fun z => if z =? 96 then 34 else if z =? 126 then 8212 else z) (s2l s).

(** [REVIEW_PROMPT.format(code=...)] up to the inserted code. *)
Definition REVIEW_PROMPT_HEAD : pystr := ptxt
"You are an expert code reviewer. Review ONLY the code below.

RULES:
- Only report issues you can SEE in the actual code provided
- Do NOT speculate about code that might exist elsewhere
- Do NOT flag standard practices (env vars for config, etc.) as issues
- Every issue MUST reference a specific line or pattern in the provided code
- If the code is clean, say so ~ do not invent problems

Respond in EXACTLY this JSON format:

{
  `summary`: `Brief overall assessment in 1-2 sentences`,
  `score`: <1-10 integer>,
  `issues`: [
    {
      `severity`: `critical|warning|info|style`,
      `title`: `Short issue title`,
      `description`: `What's wrong and why ~ reference the specific code`,
      `file`: `filename`,
      `line`: null,
      `suggestion`: `Concrete fix with code example`
    }
  ]
}

Severity guide:
- critical: Security vulnerabilities, data loss, crashes (must be PROVEN in code)
- warning: Bugs, missing error handling, race conditions (must be visible)
- info: Performance improvements, better patterns
- style: Naming, formatting, docstrings

CODE TO REVIEW:
".

(** [DIFF_REVIEW_PROMPT.format(code=...)] up to the inserted code. *)
Definition DIFF_REVIEW_PROMPT_HEAD : pystr := ptxt
"You are an expert code reviewer reviewing a pull request diff.

RULES:
- Only review the CHANGED lines
- Only report issues you can SEE in the diff
- Do NOT speculate about code outside the diff
- Every issue MUST point to a specific change
- If changes are clean, say so

Respond in EXACTLY this JSON format:

{
  `summary`: `Brief overall assessment in 1-2 sentences`,
  `score`: <1-10 integer>,
  `issues`: [
    {
      `severity`: `critical|warning|info|style`,
      `title`: `Short issue title`,
      `description`: `What's wrong ~ reference the specific change`,
      `file`: `filename`,
      `line`: null,
      `suggestion`: `Concrete fix`
    }
  ]
}

DIFF:
".

(** [_validate_code_input] *)
Definition _validate_code_input (code : pystr) : result pystr :=
  if str_eqb code [] || str_eqb (strip code) [] then Raise ValueError
  else Ok (strip code).

Section Entry.

Variable session_post : Request -> PostOutcome.

(** [review_code(code, config, is_diff)].  [parse_review_response] starts
    with [raw.strip()], which raises AttributeError when the text returned
    by [call_llm] is not a [str]. *)
Definition review_code (code : pystr) (config : Config) (is_diff : bool)
    (st : ClientState) : result ReviewResult * ClientState :=
  match _validate_code_input code with
  | Raise e => (Raise e, st)
  | Ok clean_code =>
      let truncated := firstn 8000 clean_code in
      let prompt := (if is_diff then DIFF_REVIEW_PROMPT_HEAD else REVIEW_PROMPT_HEAD)
                      ++ truncated in
      match call_llm session_post prompt config st with
      | (Raise e, st') => (Raise e, st')
      | (Ok raw_response, st') =>
          match raw_response with
          | JStr raw =>
              match parse_review_response raw with
              | Raise e => (Raise e, st')
              | Ok r =>
                  (Ok {| summary := summary r; issues := issues r; score := score r;
                         files_reviewed := files_reviewed r;
                         lines_reviewed := Z.of_nat (List.length (split clean_code [10])) |},
                   st')
              end
          | _ => (Raise AttributeError, st')
          end
      end
  end.

End Entry.

End ReviewEntry.

(* ================================================================= *)
(** ** [git_utils.py]: changed files and language statistics *)

Module GitMore.
Import Reviewer.

(** [sorted(xs, key=key)]: Python's sort is stable, and every stable sort
    gives the same list; this one inserts each element before the first
    element of the sorted rest whose key is not smaller. *)
Fixpoint insert_by {A} (key : A -> Z) (x : A) (l : list A) : list A :=
  match l with
  | [] => [x]
  | y :: l' => if key x <=? key y then x :: l else y :: insert_by key x l'
  end.

Fixpoint py_sorted {A} (key : A -> Z) (l : list A) : list A :=
  match l with
  | [] => []
  | x :: l' => insert_by key x (py_sorted key l')
  end.

(** [s.rsplit(".", 1)[-1]]: the text after the last dot (all of [s] when
    there is none). *)
Definition after_last_dot (s : pystr) : pystr :=
  rev (fst (break_at (Z.eqb 46) (rev s))).

(** [d[k] = d.get(k, 0) + 1] on an insertion-ordered dict. *)
Fixpoint dict_incr (d : list (pystr * Z)) (k : pystr) : list (pystr * Z) :=
  match d with
  | [] => [(k, 1)]
  | (k', n) :: d' => if str_eqb k' k then (k', n + 1) :: d' else (k', n) :: dict_incr d' k
  end.

Section Git.

(** [run_git(args)]: the standard output of [git args] ([""] when git
    fails to run). *)
Variable run_git : list pystr -> pystr.

(** [str.lower], left abstract: the properties below hold whatever it
    maps a text to. *)
Variable py_lower : pystr -> pystr.

(** [get_changed_files(ref)] *)
Definition get_changed_files (ref : option pystr) : list pystr :=
  let output :=
    match ref with
    | Some r =>
        if negb (str_eqb r [])
        then run_git [s2l "diff"; s2l "--name-only"; r; s2l "HEAD"]
        else run_git [s2l "diff"; s2l "--name-only"; s2l "--cached"]
    | None => run_git [s2l "diff"; s2l "--name-only"; s2l "--cached"]
    end in
  filter (fun f => negb (str_eqb f [])) (split (strip output) [10]).

(** The loop of [get_repo_language_stats]. *)
Definition count_extensions (files : list pystr) : list (pystr * Z) :=
  fold_left (fun ext f =>
               if contains f (s2l ".") then dict_incr ext (py_lower (after_last_dot f))
               else ext) files [].

(** [get_repo_language_stats()] *)
Definition get_repo_language_stats : list (pystr * Z) :=
  let files := split (strip (run_git [s2l "ls-files"])) [10] in
  firstn 10 (py_sorted (fun x => - snd x) (count_extensions files)).

End Git.

End GitMore.

(* ================================================================= *)
(** ** [config.py] *)

Module ConfigPy.
Import Reviewer.

(** A dict of the program (no duplicate keys, insertion ordered):
    [d[k] = v] replaces the value in place or appends the entry. *)
Fixpoint dict_set (d : Config) (k : pystr) (v : json) : Config :=
  match d with
  | [] => [(k, v)]
  | (k', v') :: d' => if str_eqb k' k then (k', v) :: d' else (k', v') :: dict_set d' k v
  end.

(** [d.update(e)] (also [dict(pairs)] from [[]]) *)
Definition dict_update (d : Config) (kvs : list (pystr * json)) : Config :=
  fold_left (fun d kv => dict_set d (fst kv) (snd kv)) kvs d.

(** [d.pop(k, None)] *)
Definition dict_pop (d : Config) (k : pystr) : Config :=
  filter (fun kv => negb (str_eqb (fst kv) k)) d.

(** [v == s] for a [str] [s] *)
Definition is_str_eq (v : json) (s : pystr) : bool :=
  match v with JStr t => str_eqb t s | _ => false end.

Definition DEFAULT_BASE_URL : pystr := s2l "https://api.openai.com/v1".
Definition DEFAULT_MODEL : pystr := s2l "gpt-3.5-turbo".

Definition DEFAULT_CONFIG : Config :=
  [(s2l "provider", JStr (s2l "openai"));
   (s2l "model", JStr DEFAULT_MODEL);
   (s2l "base_url", JStr DEFAULT_BASE_URL);
   (s2l "max_tokens", JInt 2048);
   (s2l "temperature", JFloat (decimal_to_double false 2 (-1)));
   (s2l "language", JStr (s2l "en"));
   (s2l "severity_threshold", JStr (s2l "low"))].

Record ProviderDefaults := mkProviderDefaults {
  pd_base_url : pystr;
  pd_model : pystr;
  pd_env_key : option pystr
}.

Definition PROVIDER_DEFAULTS : list (pystr * ProviderDefaults) :=
  [(s2l "openai", {| pd_base_url := s2l "https://api.openai.com/v1";
                     pd_model := s2l "gpt-3.5-turbo";
                     pd_env_key := Some (s2l "OPENAI_API_KEY") |});
   (s2l "anthropic", {| pd_base_url := s2l "https://api.anthropic.com/v1";
                        pd_model := s2l "claude-3-haiku-20240307";
                        pd_env_key := Some (s2l "ANTHROPIC_API_KEY") |});
   (s2l "ollama", {| pd_base_url := s2l "http://localhost:11434/v1";
                     pd_model := s2l "llama3";
                     pd_env_key := None |});
   (s2l "groq", {| pd_base_url := s2l "https://api.groq.com/openai/v1";
                   pd_model := s2l "llama-3.3-70b-versatile";
                   pd_env_key := Some (s2l "GROQ_API_KEY") |})].

Fixpoint provider_lookup_in (ps : list (pystr * ProviderDefaults)) (p : pystr)
    : option ProviderDefaults :=
  match ps with
  | [] => None
  | (k, d) :: ps' => if str_eqb k p then Some d else provider_lookup_in ps' p
  end.

(** [PROVIDER_DEFAULTS[p]] for a [str] key [p] *)
Definition provider_lookup (p : pystr) : option ProviderDefaults :=
  provider_lookup_in PROVIDER_DEFAULTS p.

(** [provider in PROVIDER_DEFAULTS] followed by the lookup: a list or a
    dict is unhashable (TypeError); any other non-[str] is never a key. *)
Definition provider_in (v : json) : result (option ProviderDefaults) :=
  match v with
  | JStr p => Ok (provider_lookup p)
  | JArr _ | JObj _ => Raise TypeError
  | _ => Ok None
  end.

(** [os.environ.get(name)] *)
Definition Env := pystr -> option pystr.

(** [if value and value.strip(): return value.strip()] *)
Definition nonblank (v : option pystr) : option pystr :=
  match v with
  | Some s => if negb (str_eqb s []) && negb (str_eqb (strip s) []) then Some (strip s) else None
  | None => None
  end.

(** [_get_api_key(config)] *)
Definition _get_api_key (env : Env) (config : Config) : result (option pystr) :=
  match nonblank (env (s2l "CODEREVIEW_API_KEY")) with
  | Some k => Ok (Some k)
  | None =>
      p <- provider_in (obj_get_default config (s2l "provider") (JStr (s2l "openai"))) ;;
      match p with
      | None => Ok None
      | Some d =>
          match pd_env_key d with
          | Some k => if negb (str_eqb k []) then Ok (nonblank (env k)) else Ok None
          | None => Ok None
          end
      end
  end.

(** The config file at [CONFIG_PATH], as [open(..., encoding="utf-8")]
    and [read] find it. *)
Inductive ConfigFile :=
| NoConfigFile                 (* [CONFIG_PATH.exists()] is false *)
| UnreadableConfigFile         (* [open] or [read] raises an OSError *)
| UndecodableConfigFile        (* not UTF-8: UnicodeDecodeError, a ValueError *)
| ConfigFileText (s : pystr).

(** [_load_config_file()]: only JSONDecodeError and IOError are caught;
    [list.pop("api_key", None)] is a TypeError, and the other non-dict
    values have no [pop]. *)
Definition _load_config_file (f : ConfigFile) : result Config :=
  match f with
  | NoConfigFile => Ok []
  | UnreadableConfigFile => Ok []
  | UndecodableConfigFile => Raise ValueError
  | ConfigFileText s =>
      match json_loads s with
      | Raise JSONDecodeError => Ok []
      | Raise e => Raise e
      | Ok (JObj kvs) => Ok (dict_pop (dict_update [] kvs) (s2l "api_key"))
      | Ok (JArr _) => Raise TypeError
      | Ok _ => Raise AttributeError
      end
  end.

(** [_apply_provider_defaults(config)] *)
Definition _apply_provider_defaults (config : Config) : result Config :=
  p <- provider_in (obj_get_default config (s2l "provider") (JStr (s2l "openai"))) ;;
  match p with
  | None => Ok config
  | Some d =>
      let c1 :=
        if negb (truthy (obj_get_default config (s2l "base_url") JNull))
           || is_str_eq (obj_get_default config (s2l "base_url") JNull) DEFAULT_BASE_URL
        then dict_set config (s2l "base_url") (JStr (pd_base_url d)) else config in
      let c2 :=
        if negb (truthy (obj_get_default c1 (s2l "model") JNull))
           || is_str_eq (obj_get_default c1 (s2l "model") JNull) DEFAULT_MODEL
        then dict_set c1 (s2l "model") (JStr (pd_model d)) else c1 in
      Ok c2
  end.

Definition opt_json (k : option pystr) : json :=
  match k with Some s => JStr s | None => JNull end.

(** [load_config()] *)
Definition load_config (env : Env) (f : ConfigFile) : result Config :=
  file_config <- _load_config_file f ;;
  let config := dict_update DEFAULT_CONFIG file_config in
  config <- _apply_provider_defaults config ;;
  key <- _get_api_key env config ;;
  let config := dict_set config (s2l "api_key") (opt_json key) in
  match env (s2l "CODEREVIEW_MODEL") with
  | Some m => if negb (str_eqb m []) then Ok (dict_set config (s2l "model") (JStr m))
              else Ok config
  | None => Ok config
  end.

(** The [ConfigError]s of the module. *)
Inductive config_reason :=
| NoApiKey          (* "No API key found. ..." *)
| KeyTooShort       (* "API key looks too short ..." *)
| UnknownProvider   (* "Unknown provider: ..." *)
| CannotWrite.      (* "Cannot write config file: ..." *)

Inductive config_exn :=
| ConfigError (r : config_reason)
| PyExn (e : exn).

Inductive cresult (A : Type) :=
| COk (a : A)
| CRaise (e : config_exn).
Arguments COk {A} a.
Arguments CRaise {A} e.

(** [len(v)] *)
Definition py_len (v : json) : result Z :=
  match v with
  | JStr s => Ok (Z.of_nat (List.length s))
  | JArr xs => Ok (Z.of_nat (List.length xs))
  | JObj kvs => Ok (Z.of_nat (List.length (dict_keys_aux kvs [])))
  | _ => Raise TypeError
  end.

(** [validate_api_key(api_key, provider)]; the message of the missing-key
    error looks [provider] up in [PROVIDER_DEFAULTS], a TypeError for an
    unhashable value. *)
Definition validate_api_key (api_key provider : json) : cresult bool :=
  if is_str_eq provider (s2l "ollama") then COk true
  else if negb (truthy api_key) then
    match provider with
    | JArr _ | JObj _ => CRaise (PyExn TypeError)
    | _ => CRaise (ConfigError NoApiKey)
    end
  else
    match py_len api_key with
    | Raise e => CRaise (PyExn e)
    | Ok n => if n <? 10 then CRaise (ConfigError KeyTooShort) else COk true
    end.





End ConfigPy.

(* ================================================================= *)
(** ** [formatter.py] and [cli.py] *)

Module Formatter.
Import Reviewer GitMore.

Definition SCORE_COLORS : list ((Z * Z) * pystr) :=
  [((0, 4), s2l "bold red"); ((4, 7), s2l "bold yellow");
   ((7, 9), s2l "bold green"); ((9, 11), s2l "bold bright_green")].

Fixpoint color_in (ranges : list ((Z * Z) * pystr)) (score : Z) : pystr :=
  match ranges with
  | [] => s2l "white"
  | ((lo, hi), color) :: rs => if (lo <=? score) && (score <? hi) then color else color_in rs score
  end.

(** [get_score_color(score)] *)
Definition get_score_color (score : Z) : pystr := color_in SCORE_COLORS score.

(** [s * n]: empty for [n <= 0]. *)
Definition str_mul (s : pystr) (n : Z) : pystr := List.concat (repeat s (Z.to_nat n)).

(** The two cell literals of [get_score_bar] as the source file holds
    them: a full block and a light shade mis-encoded, each read back as
    three code points, U+00E2 U+2013 U+02C6 and U+00E2 U+2013 U+2018. *)
Definition FULL_CELL : pystr := [226; 8211; 710].
Definition LIGHT_CELL : pystr := [226; 8211; 8216].

(** [get_score_bar(score)] *)
Definition get_score_bar (score : Z) : pystr :=
  str_mul FULL_CELL score ++ str_mul LIGHT_CELL (10 - score).

(** [list(Severity).index(s)] *)
Definition severity_index (s : Severity) : Z :=
  match s with CRITICAL => 0 | WARNING => 1 | INFO => 2 | STYLE => 3 end.

(** The order in which [print_review] prints the issues. *)
Definition sorted_issues (r : ReviewResult) : list Issue :=
  py_sorted (fun i => severity_index (severity i)) (issues r).

(** [counts = {s: 0 for s in Severity}; counts[issue.severity] += 1] *)
Definition severity_counts (r : ReviewResult) : Z * Z * Z * Z :=
  fold_left (fun c i =>
               let '(a, b, d, e) := c in
               match severity i with
               | CRITICAL => (a + 1, b, d, e)
               | WARNING => (a, b + 1, d, e)
               | INFO => (a, b, d + 1, e)
               | STYLE => (a, b, d, e + 1)
               end) (issues r) (0, 0, 0, 0).

(** [any(counts.values())]: whether the count line is printed. *)
Definition shows_counts (r : ReviewResult) : bool :=
  let '(a, b, d, e) := severity_counts r in
  negb (a =? 0) || negb (b =? 0) || negb (d =? 0) || negb (e =? 0).

End Formatter.

Module Cli.
Import Reviewer ConfigPy.

(** [apply_overrides(config, args)] for [args.model] and [args.provider]
    ([None] when the option is absent).  The default of [defaults.get] is
    evaluated first: a config without [base_url] is a KeyError. *)
Definition apply_overrides (config : Config) (model provider : option pystr) : result Config :=
  let config :=
    match model with
    | Some m => if negb (str_eqb m []) then dict_set config (s2l "model") (JStr m) else config
    | None => config
    end in
  match provider with
  | Some p =>
      if negb (str_eqb p []) then
        let config := dict_set config (s2l "provider") (JStr p) in
        match obj_get config (s2l "base_url") with
        | None => Raise KeyError
        | Some cur =>
            let b := match provider_lookup p with
                     | Some d => JStr (pd_base_url d)
                     | None => cur
                     end in
            Ok (dict_set config (s2l "base_url") b)
        end
      else Ok config
  | None => Ok config
  end.

(** The configuration steps of [main] (cli.py, lines 394-401):
    [load_config], [apply_overrides] and
    [validate_api_key(config.get("api_key"), config.get("provider",
    "openai"))]; [CRaise] is the exit with status 1.  Only these steps are
    modelled: [main] reaches them when neither [--setup] nor [--init] is
    given and [is_first_run()] is false, and the earlier branches (which
    print or return) never accept a configuration.  [cli.py] imports
    [is_first_run], [GROQ_SETUP_INSTRUCTIONS] and [__version__], which
    the package does not define, so [main] cannot run as the source
    stands. *)
Definition main_config (env : Env) (f : ConfigFile) (model provider : option pystr)
    : cresult Config :=
  match load_config env f with
  | Raise e => CRaise (PyExn e)
  | Ok config =>
      match apply_overrides config model provider with
      | Raise e => CRaise (PyExn e)
      | Ok config =>
          match validate_api_key (obj_get_default config (s2l "api_key") JNull)
                  (obj_get_default config (s2l "provider") (JStr (s2l "openai"))) with
          | CRaise e => CRaise e
          | COk _ => COk config
          end
      end
  end.

End Cli.

(* ================================================================= *)
(** * Observations used in the statements *)

Module Fixtures.
Import Reviewer.

(** The score of a parsed reply. *)
Definition score_on (raw : pystr) : result Z :=
  match parse_review_response raw with
  | Ok r => Ok (score r)
  | Raise e => Raise e
  end.

(** The lines of the issues of a parsed reply. *)
Definition issue_lines (raw : pystr) : option (list (option json)) :=
  match parse_review_response raw with
  | Ok r => Some (map line (issues r))
  | Raise _ => None
  end.

(** What the [line] field is, for the source entry [src]: a Python int
    is kept as it is, whatever its sign, and this includes [true] and
    [false] ([bool] is a subclass of [int]); a missing entry, [null], a
    string, a float, a list or an object gives no line. *)
Definition line_kept (src out : option json) : Prop :=
  match src with
  | Some (JInt z) => out = Some (JInt z)
  | Some (JBool b) => out = Some (JBool b)
  | _ => out = None
  end.

(** The value of each severity. *)
Definition severity_name (s : Severity) : pystr :=
  match s with
  | CRITICAL => s2l "critical"
  | WARNING => s2l "warning"
  | INFO => s2l "info"
  | STYLE => s2l "style"
  end.

(** The cache after inserting a new entry. *)
Definition insert_entry (c : list (pystr * json)) (k : pystr) (v : json) :=
  (if Nat.leb MAX_CACHE_SIZE (List.length c) then tl c else c) ++ [(k, v)].

(** Concrete inputs for the client properties. *)
Definition ok_post (content : string) : Request -> PostOutcome :=
  fun _ => PostResponse 200
             (jtxt ("{'choices': [{'message': {'content': '" ++ content ++ "'}}]}")).

Definition full_cache : list (pystr * json) :=
  map (fun i => (s2l "k" ++ [Z.of_nat i], JStr [])) (seq 0 50).

Definition st_full : ClientState := {| cache := full_cache; posts := [] |}.

Definition st_empty : ClientState := {| cache := []; posts := [] |}.

Definition warm_cache : ClientState :=
  {| cache := [(s2l "gpt-3.5-turbo:p", JStr (s2l "cached"))]; posts := [] |}.

End Fixtures.

(* ================================================================= *)
(** * Inputs and observations for the further properties *)

Module ExtraFixtures.
Import Reviewer.

(** The number of line feeds in a text. *)
Definition count_nl (s : pystr) : nat := List.length (filter (Z.eqb 10) s).

(** A server whose reply has [null] as message content. *)
Definition null_post : Request -> PostOutcome :=
  fun _ => PostResponse 200 (jtxt "{'choices': [{'message': {'content': null}}]}").

(** A server answering every request with the HTTP status [s]. *)
Definition status_post (s : Z) : Request -> PostOutcome := fun _ => PostResponse s [].

(** Whether the texts of a list are pairwise distinct. *)
Fixpoint nodupb (l : list pystr) : bool :=
  match l with
  | [] => true
  | x :: l' => negb (existsb (str_eqb x) l') && nodupb l'
  end.

(** The diff lines of the kinds [parse_diff] distinguishes. *)
Definition is_header (l : pystr) : bool := startswith l (s2l "diff --git").
Definition is_added (l : pystr) : bool :=
  startswith l (s2l "+") && negb (startswith l (s2l "+++")).
Definition is_removed (l : pystr) : bool :=
  startswith l (s2l "-") && negb (startswith l (s2l "---")).
Definition added_of (ls : list pystr) : list pystr := map (skipn 1) (filter is_added ls).
Definition removed_of (ls : list pystr) : list pystr := map (skipn 1) (filter is_removed ls).

(** The file name [parse_diff] reads off a header line. *)
Definition header_file (h : pystr) : pystr :=
  let parts := split h (s2l " b/") in
  if Nat.ltb 1 (List.length parts) then last_part parts else s2l "unknown".

(** A diff as lines: lines before the first header, then sections of a
    header line and its body lines. *)
Definition diff_lines (pre : list pystr) (secs : list (pystr * list pystr)) : list pystr :=
  pre ++ flat_map (fun sec => fst sec :: snd sec) secs.

(** The hunk a section gives, if any. *)
Definition section_hunks (sec : pystr * list pystr) : list GitUtils.DiffHunk :=
  match GitUtils._finalize_hunk (Some (header_file (fst sec))) (snd sec)
          (added_of (snd sec)) (removed_of (snd sec)) with
  | Some h => [h]
  | None => []
  end.

(** The hunks [parse_diff] returns from a loop state: the ones emitted so
    far and the one pending. *)
Definition flush (st : GitUtils.ParseState) : list GitUtils.DiffHunk :=
  GitUtils.append_hunk (GitUtils.hunks st)
    (GitUtils._finalize_hunk (GitUtils.current_file st) (GitUtils.current_content st)
       (GitUtils.added st) (GitUtils.removed st)).

(** The conditions every hunk of [parse_diff] meets. *)
Definition hunk_ok (h : GitUtils.DiffHunk) : Prop :=
  GitUtils.file h <> [] /\ GitUtils.old_start h = 0 /\ GitUtils.new_start h = 0.

(** The hunks emitted so far plus one if a file is open. *)
Definition pending (st : GitUtils.ParseState) : nat :=
  (List.length (GitUtils.hunks st) +
   match GitUtils.current_file st with Some _ => 1 | None => 0 end)%nat.

(** What [_apply_provider_defaults] leaves in a field: the value read from
    the file when it is set, truthy and not the OpenAI default, else the
    provider's value. *)
Definition kept_or (o : option json) (dflt new : pystr) : json :=
  match o with
  | Some v => if truthy v && negb (ConfigPy.is_str_eq v dflt) then v else JStr new
  | None => JStr new
  end.

(** Environments: a universal key with surrounding blanks; only a Groq
    key; only a model override. *)
Definition key_env (n : pystr) : option pystr :=
  if str_eqb n (s2l "CODEREVIEW_API_KEY") then Some (s2l " sk-test-0123456789 ") else None.
Definition groq_env (n : pystr) : option pystr :=
  if str_eqb n (s2l "GROQ_API_KEY") then Some (s2l "gsk_0123456789abcdef") else None.
Definition model_env (n : pystr) : option pystr :=
  if str_eqb n (s2l "CODEREVIEW_MODEL") then Some (s2l "gpt-4o") else None.

(** A config file choosing Groq with a model of its own. *)
Definition groq_file : pystr := jtxt "{'provider': 'groq', 'model': 'mixtral', 'api_key': 'leaked'}".

(** A review with issues of every severity, out of order. *)
Definition sample_issue (s : Severity) (t : string) : Issue :=
  {| severity := s; title := s2l t; description := []; file := []; line := None;
     suggestion := [] |}.
Definition sample_review : ReviewResult :=
  {| summary := s2l "ok";
     issues := [sample_issue INFO "i1"; sample_issue CRITICAL "c1"; sample_issue STYLE "s1";
                sample_issue CRITICAL "c2"; sample_issue WARNING "w1"];
     score := 6; files_reviewed := 0; lines_reviewed := 3 |}.

Definition no_lf (l : pystr) : bool := negb (existsb (Z.eqb 10) l).

Definition zsum (l : list Z) : Z := fold_right Z.add 0 l.

(** Whether two severities are the same member. *)
Definition severity_eqb (a b : Severity) : bool :=
  match a, b with
  | CRITICAL, CRITICAL | WARNING, WARNING | INFO, INFO | STYLE, STYLE => true
  | _, _ => false
  end.

(** The issues of [l] with severity [s], in order. *)
Definition sev_block (s : Severity) (l : list Issue) : list Issue :=
  filter (fun i => severity_eqb (severity i) s) l.

(** The issues of one severity. *)
Definition issues_of (s : Severity) (r : ReviewResult) : list Issue :=
  filter (fun i => severity_eqb (severity i) s) (issues r).

(** 8000 letters [a]. *)
Definition long_a : pystr := repeat 97 8000%nat.

End ExtraFixtures.

(* ================================================================= *)
(** * Facts about string comparison *)

Module StrFacts.

Lemma str_eqb_refl : forall s, str_eqb s s = true.
Proof. induction s; simpl; [reflexivity | now rewrite Z.eqb_refl, IHs]. Qed.

Lemma str_eqb_eq : forall a b, str_eqb a b = true -> a = b.
Proof.
  induction a as [| x a IH]; intros [| y b] H; simpl in H; try discriminate; [reflexivity |].
  apply andb_prop in H as [Hxy H]; apply Z.eqb_eq in Hxy; subst; f_equal; now apply IH.
Qed.

End StrFacts.

(* ================================================================= *)
(** * Properties of the response parser *)

Module ResponseProofs.
Import Reviewer Fixtures StrFacts.

(** Every score [score_of] produces lies in [0, 10]. *)
Lemma score_of_bounds : forall v z, score_of v = Ok z -> 0 <= z <= 10.
Proof.
  intros v z H; unfold score_of, clamp_score in H.
  destruct v as [| b | n | f | s | xs | kvs]; try (inversion H; lia).
  destruct (float_to_int f) as [n | e]; simpl in H; inversion H; lia.
Qed.

(** Claim C1 (code defect).  [parse_review_response] only recovers from
    [JSONDecodeError]: a reply that is valid JSON but whose top-level value
    is not an object raises AttributeError, an [issues] entry that is not
    iterable raises TypeError, and a non-finite [score] raises. *)
Theorem parse_review_response_raises :
  parse_review_response (jtxt "[]") = Raise AttributeError /\
  parse_review_response (jtxt "{'issues': null}") = Raise TypeError /\
  parse_review_response (jtxt "{'score': Infinity}") = Raise OverflowError.
Proof. vm_compute. repeat split. Qed.

(** Claim C7 (code defect).  The listed scores map to 0, 0, 7, 10, 0, but
    the score NaN, which [json.loads] accepts as a float, makes
    [int(score_raw)] raise ValueError instead of being clamped, and the JSON
    boolean [true] passes the [isinstance(..., (int, float))] test and
    yields 1. *)
Theorem score_clamp_examples_and_nan :
  score_on (jtxt "{'score': -5}") = Ok 0 /\
  score_on (jtxt "{'score': 0}") = Ok 0 /\
  score_on (jtxt "{'score': 7}") = Ok 7 /\
  score_on (jtxt "{'score': 15}") = Ok 10 /\
  score_on (jtxt "{'score': 'abc'}") = Ok 0 /\
  score_on (jtxt "{'score': NaN}") = Raise ValueError /\
  score_on (jtxt "{'score': true}") = Ok 1.
Proof. vm_compute. repeat split. Qed.

(** Claim C3, counterexample: a negative [line] is kept. *)
Lemma line_negative_kept :
  issue_lines (jtxt "{'issues': [{'title': 'x', 'line': -3}]}") = Some [Some (JInt (-3))].
Proof. vm_compute. reflexivity. Qed.

(** Claim C3, as amended: [_parse_issue] keeps [line] exactly when it is
    a Python int (an integer of any sign, or a boolean), and never converts
    strings or floats. *)
Theorem parse_issue_line :
  forall item, line_kept (obj_get item (s2l "line")) (line (_parse_issue item)).
Proof.
  intros item; unfold line_kept, _parse_issue; simpl.
  destruct (obj_get item (s2l "line")) as [v |]; [| reflexivity].
  destruct v; simpl; reflexivity.
Qed.

Lemma severity_of_value_name : forall s sev,
  severity_of_value s = Some sev -> str_eqb s (severity_name sev) = true.
Proof.
  intros s sev H; unfold severity_of_value in H.
  repeat match type of H with
         | context [if ?c then _ else _] => destruct c eqn:?
         end; inversion H; subst; assumption.
Qed.

Lemma severity_of_value_none : forall s sev,
  severity_of_value s = None -> str_eqb s (severity_name sev) = false.
Proof.
  intros s sev H; unfold severity_of_value in H.
  repeat match type of H with
         | context [if ?c then _ else _] => destruct c eqn:?
         end; try discriminate; destruct sev; assumption.
Qed.

(** Claim C8.  The severity of a parsed issue is total over the four
    values: a string entry whose trimmed lowercase text names a severity
    gives that severity; an unknown name, a non-string value or a missing
    entry gives INFO. *)
Theorem parse_issue_severity_total :
  forall item,
    let sev := severity (_parse_issue item) in
    match obj_get item (s2l "severity") with
    | Some (JStr s) =>
        str_eqb (strip (lower s)) (severity_name sev) = true \/
        (sev = INFO /\ forall x, str_eqb (strip (lower s)) (severity_name x) = false)
    | Some _ => sev = INFO
    | None => sev = INFO
    end.
Proof.
  intros item; unfold _parse_issue, obj_get_default; simpl.
  destruct (obj_get item (s2l "severity")) as [v |]; [| reflexivity].
  destruct v; simpl; try reflexivity.
  destruct (severity_of_value (strip (lower s))) as [sev |] eqn:E.
  - left; now apply severity_of_value_name.
  - right; split; [reflexivity |]; intros x; now apply severity_of_value_none.
Qed.

End ResponseProofs.

(* ================================================================= *)
(** * Properties of the diff tokenizer *)

Module DiffProofs.
Import GitUtils Fixtures StrFacts.

Lemma startswith_app : forall p s,
  startswith s p = true -> s = p ++ skipn (List.length p) s.
Proof.
  induction p as [| x p IH]; intros s H; [reflexivity |].
  destruct s as [| y s]; simpl in H; [discriminate |].
  apply andb_prop in H as [Hxy Hs]; apply Z.eqb_eq in Hxy; subst y.
  simpl; f_equal; now apply IH.
Qed.

Lemma contains_nil : forall p, p <> [] -> contains [] p = false.
Proof. intros [| x p] H; [congruence | reflexivity]. Qed.

Lemma last_cons_nonempty : forall {A} (a : A) l d,
  l <> [] -> last (a :: l) d = last l d.
Proof. intros A a [| b l] d H; [congruence | reflexivity]. Qed.

Lemma split_scan_nonempty : forall sep s cur k, split_scan sep s cur k <> [].
Proof.
  intros sep s; induction s as [| c s IH]; intros cur k; cbn [split_scan]; [congruence |].
  destruct k; [destruct (startswith (c :: s) sep) |]; auto; congruence.
Qed.

(** The pieces [split_scan] returns: either no separator occurs in the
    scanned text and there is one piece, or the last piece is the text
    after an occurrence of the separator after which none begins. *)
Lemma split_scan_cases : forall sep, sep <> [] ->
  forall s cur k,
    (split_scan sep s cur k = [rev cur ++ skipn k s] /\
     contains (skipn k s) sep = false)
    \/
    (exists x t, skipn k s = x ++ sep ++ t /\
                 last (split_scan sep s cur k) [] = t /\
                 contains t sep = false /\
                 (1 < List.length (split_scan sep s cur k))%nat).
Proof.
  intros sep Hsep s; induction s as [| c s IH]; intros cur k.
  - left; simpl; rewrite skipn_nil, app_nil_r; split; [reflexivity |].
    now apply contains_nil.
  - destruct k as [| k].
    + cbn [skipn split_scan].
      destruct (startswith (c :: s) sep) eqn:Hst.
      * right.
        assert (Hs : c :: s = sep ++ skipn (pred (List.length sep)) s).
        { rewrite (startswith_app _ _ Hst) at 1. f_equal.
          destruct sep as [| y sep]; [congruence | reflexivity]. }
        destruct (IH [] (pred (List.length sep))) as [[Heq Hc] | (x & t & Hx & Hl & Hc & Hlen)].
        -- exists [], (skipn (pred (List.length sep)) s).
           rewrite Heq; simpl; repeat split; auto.
        -- exists (sep ++ x), t.
           rewrite Hs, Hx, <- app_assoc; repeat split; auto.
           ++ rewrite last_cons_nonempty; [exact Hl | apply split_scan_nonempty].
           ++ simpl; lia.
      * destruct (IH (c :: cur) O) as [[Heq Hc] | (x & t & Hx & Hl & Hc & Hlen)].
        -- left; rewrite Heq; cbn [skipn] in *; split.
           ++ cbn [rev]; now rewrite <- app_assoc.
           ++ cbn [contains]; rewrite Hst, Hc; reflexivity.
        -- right; exists (c :: x), t; cbn [skipn] in Hx.
           repeat split; auto; cbn [app]; now rewrite Hx.
    + cbn [skipn split_scan]; apply IH.
Qed.

(** Without a header line the loop never sets a current file nor emits
    a hunk. *)
Lemma fold_no_header : forall lines st,
  current_file st = None -> hunks st = [] ->
  (forall l, In l lines -> startswith l (s2l "diff --git") = false) ->
  current_file (fold_left step lines st) = None /\
  hunks (fold_left step lines st) = [].
Proof.
  induction lines as [| l lines IH]; intros st Hf Hh Hl; simpl; [auto |].
  apply IH; [| | intros l' Hin; apply Hl; now right].
  - destruct st as [hs cf cc ad rm]; simpl in *; subst.
    rewrite (Hl l (or_introl eq_refl)).
    repeat (destruct (_ && _) || destruct (startswith _ _)); reflexivity.
  - destruct st as [hs cf cc ad rm]; simpl in *; subst.
    rewrite (Hl l (or_introl eq_refl)).
    repeat (destruct (_ && _) || destruct (startswith _ _)); reflexivity.
Qed.

(** Claim C9.  A diff text none of whose lines starts with [diff --git]
    parses to no hunk. *)
Theorem parse_diff_no_header :
  forall diff_text,
    (forall l, In l (split diff_text [10]) -> startswith l (s2l "diff --git") = false) ->
    parse_diff diff_text = [].
Proof.
  intros t H; unfold parse_diff.
  destruct (fold_no_header (split t [10]) init_state eq_refl eq_refl H) as [Hf Hh].
  rewrite Hf, Hh; reflexivity.
Qed.

Lemma parse_diff_no_header_witness :
  (forall l, In l (split [] [10]) -> startswith l (s2l "diff --git") = false) /\
  parse_diff [] = [].
Proof.
  assert (H : forall l, In l (split [] [10]) -> startswith l (s2l "diff --git") = false).
  { intros l [<- | []]; reflexivity. }
  split; [exact H | exact (parse_diff_no_header [] H)].
Defined.

(** Claim C10.  On a [diff --git] line containing [" b/"], the loop sets
    the current file to the text after an occurrence of [" b/"] after which
    no other occurrence begins, that is after the last one. *)
Theorem header_file_after_last_separator :
  forall st h,
    startswith h (s2l "diff --git") = true ->
    contains h (s2l " b/") = true ->
    exists x t,
      h = x ++ s2l " b/" ++ t /\
      contains (skipn 1 (s2l " b/" ++ t)) (s2l " b/") = false /\
      current_file (step st h) = Some t.
Proof.
  intros st h Hh Hc.
  destruct (split_scan_cases (s2l " b/") ltac:(discriminate) h [] O)
    as [[_ Hn] | (x & t & Hx & Hl & Hn & Hlen)].
  - simpl skipn in Hn; congruence.
  - exists x, t; simpl skipn in Hx; split; [exact Hx | split].
    + simpl; rewrite Hn; reflexivity.
    + destruct st as [hs cf cc ad rm]; unfold step; rewrite Hh; simpl.
      unfold split; apply Nat.ltb_lt in Hlen; rewrite Hlen.
      unfold last_part; rewrite Hl; reflexivity.
Qed.

Lemma header_file_after_last_separator_witness :
  exists x t,
    s2l "diff --git a/x b/y b/z" = x ++ s2l " b/" ++ t /\
    contains (skipn 1 (s2l " b/" ++ t)) (s2l " b/") = false /\
    current_file (step init_state (s2l "diff --git a/x b/y b/z")) = Some t.
Proof.
  apply header_file_after_last_separator; vm_compute; reflexivity.
Defined.

(** Claim C4 (code defect).  A [diff --git] header followed only by the
    newline that ends it gives a hunk whose content is the empty string:
    [split("\n")] leaves an empty last line, which makes the content list
    non-empty. *)
Theorem parse_diff_header_only_hunk :
  parse_diff (s2l "diff --git a/x b/x" ++ [10]) =
  [{| file := s2l "x"; old_start := 0; new_start := 0; content := [];
      added_lines := []; removed_lines := [] |}].
Proof. vm_compute. reflexivity. Qed.

End DiffProofs.

(* ================================================================= *)
(** * Properties of [call_llm] *)

Module ClientProofs.
Import Reviewer Fixtures StrFacts.

Lemma cache_lookup_app_new : forall c k v,
  cache_lookup c k = None -> cache_lookup (c ++ [(k, v)]) k = Some v.
Proof.
  induction c as [| [k' w] c IH]; intros k v H; simpl in *.
  - now rewrite str_eqb_refl.
  - destruct (str_eqb k' k); [discriminate | now apply IH].
Qed.

Lemma cache_lookup_tl : forall c k,
  cache_lookup c k = None -> cache_lookup (tl c) k = None.
Proof.
  intros [| [k' w] c] k H; simpl in *; [reflexivity |].
  destruct (str_eqb k' k); [discriminate | exact H].
Qed.

Ltac split_call H :=
  repeat match type of H with
         | context [match ?x with _ => _ end] =>
             let E := fresh "E" in destruct x eqn:E
         end.

(** Every call either leaves the cache as it was (an error, or a hit
    that returns the cached value) or inserts one new entry. *)
Lemma call_llm_cache_cases : forall post prompt config st r st',
  call_llm post prompt config st = (r, st') ->
  (cache st' = cache st /\
   forall v, r = Ok v ->
     exists b m a key, _validate_api_config config = Ok (b, m, a) /\
       _get_cache_key prompt m = Ok key /\
       cache_lookup (cache st) key = Some v /\ st' = st)
  \/
  (exists b m a key v, _validate_api_config config = Ok (b, m, a) /\
     _get_cache_key prompt m = Ok key /\
     cache_lookup (cache st) key = None /\ r = Ok v /\
     cache st' = insert_entry (cache st) key v).
Proof.
  intros post prompt config st r st' H; unfold call_llm in H.
  split_call H; inversion H; subst; clear H;
    first
      [ left; split; [reflexivity | intros v Hv; discriminate Hv]
      | left; split; [reflexivity |]; intros v Hv; inversion Hv; subst;
        do 4 eexists; repeat split; eassumption || reflexivity
      | right; do 5 eexists; repeat split; try eassumption; try reflexivity;
        unfold insert_entry; match goal with E : Nat.leb _ _ = _ |- _ => now rewrite E end ].
Qed.

(** Claim C5.  On a miss with the cache at its capacity of 50, a
    successful call evicts exactly the first-inserted entry and appends
    the new one (the other 49 keep their order); and no call ever takes
    the cache beyond 50 entries. *)
Theorem cache_eviction_oldest_first :
  (forall post prompt config st b m a key content st',
     _validate_api_config config = Ok (b, m, a) ->
     _get_cache_key prompt m = Ok key ->
     cache_lookup (cache st) key = None ->
     List.length (cache st) = MAX_CACHE_SIZE ->
     call_llm post prompt config st = (Ok content, st') ->
     cache st' = tl (cache st) ++ [(key, content)] /\
     List.length (cache st') = MAX_CACHE_SIZE) /\
  (forall post prompt config st r st',
     (List.length (cache st) <= MAX_CACHE_SIZE)%nat ->
     call_llm post prompt config st = (r, st') ->
     (List.length (cache st') <= MAX_CACHE_SIZE)%nat).
Proof.
  split.
  - intros post prompt config st b m a key content st' Hv Hk Hl Hlen H.
    destruct (call_llm_cache_cases _ _ _ _ _ _ H)
      as [[_ Hhit] | (b' & m' & a' & key' & v & Hv' & Hk' & Hl' & Hr & Hc)].
    + destruct (Hhit content eq_refl) as (b' & m' & a' & key' & Hv' & Hk' & Hl' & _).
      rewrite Hv in Hv'; inversion Hv'; subst.
      rewrite Hk in Hk'; inversion Hk'; subst; congruence.
    + rewrite Hv in Hv'; inversion Hv'; subst.
      rewrite Hk in Hk'; inversion Hk'; subst; inversion Hr; subst.
      unfold insert_entry in Hc; rewrite Hlen in Hc; simpl in Hc.
      split; [exact Hc |].
      rewrite Hc, length_app; destruct (cache st) as [| e c]; simpl in *;
        unfold MAX_CACHE_SIZE in *; lia.
  - intros post prompt config st r st' Hle H.
    destruct (call_llm_cache_cases _ _ _ _ _ _ H)
      as [[Hc _] | (b' & m' & a' & key' & v & _ & _ & _ & _ & Hc)].
    + now rewrite Hc.
    + rewrite Hc; unfold insert_entry.
      destruct (Nat.leb MAX_CACHE_SIZE (List.length (cache st))) eqn:E.
      * apply Nat.leb_le in E; rewrite length_app.
        destruct (cache st) as [| e c]; simpl in *; unfold MAX_CACHE_SIZE in *; lia.
      * apply Nat.leb_gt in E; rewrite length_app; simpl; lia.
Qed.

Lemma cache_eviction_oldest_first_witness :
  (cache (snd (call_llm (ok_post "hi") (s2l "p") [] st_full)) =
     tl full_cache ++ [(s2l "gpt-3.5-turbo:p", JStr (s2l "hi"))] /\
   List.length (cache (snd (call_llm (ok_post "hi") (s2l "p") [] st_full))) = MAX_CACHE_SIZE) /\
  (List.length (cache (snd (call_llm (ok_post "hi") (s2l "p") [] st_full))) <= MAX_CACHE_SIZE)%nat.
Proof.
  destruct cache_eviction_oldest_first as [H1 H2].
  assert (Hc : call_llm (ok_post "hi") (s2l "p") [] st_full =
               (Ok (JStr (s2l "hi")), snd (call_llm (ok_post "hi") (s2l "p") [] st_full)))
    by (vm_compute; reflexivity).
  split.
  - apply (H1 (ok_post "hi") (s2l "p") [] st_full (s2l "https://api.openai.com/v1")
             (JStr (s2l "gpt-3.5-turbo")) (JStr []) (s2l "gpt-3.5-turbo:p")).
    + vm_compute; reflexivity.
    + vm_compute; reflexivity.
    + vm_compute; reflexivity.
    + vm_compute; reflexivity.
    + exact Hc.
  - apply (H2 (ok_post "hi") (s2l "p") [] st_full (Ok (JStr (s2l "hi")))).
    + apply Nat.leb_le; vm_compute; reflexivity.
    + exact Hc.
Defined.

(** Claim C6, counterexample: with a warm cache but an empty base URL the
    call fails on the configuration check instead of returning the cached
    text. *)
Lemma cache_hit_needs_valid_config :
  fst (call_llm (fun _ => PostConnectionError) (s2l "p")
         [(s2l "base_url", JStr [])] warm_cache) = Raise (RuntimeError NoBaseUrl).
Proof. vm_compute. reflexivity. Qed.

(** Claim C6, as amended.  When the configuration passes the check and the
    cache holds the entry of the prompt and model, [call_llm] returns the
    cached text with the state unchanged: no request is sent and the cache
    order is not touched.  Hence after a successful call, the same call
    again returns the same text and sends nothing. *)
Theorem cache_hit_no_network :
  (forall post prompt config st b m a key v,
     _validate_api_config config = Ok (b, m, a) ->
     _get_cache_key prompt m = Ok key ->
     cache_lookup (cache st) key = Some v ->
     call_llm post prompt config st = (Ok v, st)) /\
  (forall post prompt config st v st1,
     call_llm post prompt config st = (Ok v, st1) ->
     call_llm post prompt config st1 = (Ok v, st1)).
Proof.
  assert (Hhit : forall post prompt config st b m a key v,
     _validate_api_config config = Ok (b, m, a) ->
     _get_cache_key prompt m = Ok key ->
     cache_lookup (cache st) key = Some v ->
     call_llm post prompt config st = (Ok v, st)).
  { intros post prompt config st b m a key v Hv Hk Hl.
    unfold call_llm; rewrite Hv, Hk, Hl; reflexivity. }
  split; [exact Hhit |].
  intros post prompt config st v st1 H.
  destruct (call_llm_cache_cases _ _ _ _ _ _ H)
    as [[_ Hh] | (b & m & a & key & v' & Hv & Hk & Hl & Hr & Hc)].
  - destruct (Hh v eq_refl) as (b & m & a & key & Hv & Hk & Hl & ->).
    eapply Hhit; eassumption.
  - inversion Hr; subst v'.
    apply (Hhit _ _ _ _ b m a key); [exact Hv | exact Hk |].
    rewrite Hc; unfold insert_entry; apply cache_lookup_app_new.
    destruct (Nat.leb _ _); [now apply cache_lookup_tl | exact Hl].
Qed.

Lemma cache_hit_no_network_witness :
  call_llm (ok_post "new") (s2l "p") [] warm_cache = (Ok (JStr (s2l "cached")), warm_cache) /\
  call_llm (ok_post "hi") (s2l "p") [] (snd (call_llm (ok_post "hi") (s2l "p") [] st_empty)) =
    (Ok (JStr (s2l "hi")), snd (call_llm (ok_post "hi") (s2l "p") [] st_empty)).
Proof.
  destruct cache_hit_no_network as [H1 H2]; split.
  - apply (H1 _ _ _ _ (s2l "https://api.openai.com/v1") (JStr (s2l "gpt-3.5-turbo"))
             (JStr []) (s2l "gpt-3.5-turbo:p")); vm_compute; reflexivity.
  - apply (H2 (ok_post "hi") (s2l "p") [] st_empty); vm_compute; reflexivity.
Defined.

(** Claim C2, counterexample: a configuration without base URL and model
    passes the check (the defaults apply) and a request is sent. *)
Lemma empty_config_reaches_network :
  List.length (posts (snd (call_llm (fun _ => PostConnectionError) (s2l "p") [] st_empty))) = 1%nat.
Proof. vm_compute. reflexivity. Qed.

(** Claim C2, as amended.  [call_llm] fails before sending anything (the
    state is returned unchanged) when [base_url] is a str that is empty
    once trailing slashes are removed, when it is not a str, or when
    [base_url] is usable and [model] is present but falsy.  A missing
    [base_url] or [model] takes its default and passes the check. *)
Theorem config_errors_before_network : forall post prompt config st,
  (forall b, obj_get config (s2l "base_url") = Some (JStr b) ->
     rstrip_chars (s2l "/") b = [] ->
     call_llm post prompt config st = (Raise (RuntimeError NoBaseUrl), st)) /\
  (forall v, obj_get config (s2l "base_url") = Some v -> (forall b, v <> JStr b) ->
     call_llm post prompt config st = (Raise AttributeError, st)) /\
  (forall m, obj_get config (s2l "model") = Some m -> truthy m = false ->
     match obj_get config (s2l "base_url") with
     | None => True
     | Some (JStr b) => rstrip_chars (s2l "/") b <> []
     | Some _ => False
     end ->
     call_llm post prompt config st = (Raise (RuntimeError NoModel), st)) /\
  (obj_get config (s2l "base_url") = None -> obj_get config (s2l "model") = None ->
     _validate_api_config config =
       Ok (s2l "https://api.openai.com/v1", JStr (s2l "gpt-3.5-turbo"),
           obj_get_default config (s2l "api_key") (JStr []))).
Proof.
  intros post prompt config st; repeat split.
  - intros b Hb He; unfold call_llm, _validate_api_config, obj_get_default.
    rewrite Hb, He; reflexivity.
  - intros v Hb Hn; unfold call_llm, _validate_api_config, obj_get_default.
    rewrite Hb; destruct v; try reflexivity; exfalso; eapply Hn; reflexivity.
  - intros m Hm Hf Hb; unfold call_llm, _validate_api_config, obj_get_default.
    rewrite Hm, Hf.
    destruct (obj_get config (s2l "base_url")) as [v |]; [| reflexivity].
    destruct v; try contradiction.
    destruct (str_eqb (rstrip_chars (s2l "/") s) []) eqn:E.
    + apply str_eqb_eq in E; contradiction.
    + reflexivity.
  - intros Hb Hm; unfold _validate_api_config, obj_get_default.
    rewrite Hb, Hm; reflexivity.
Qed.

Lemma config_errors_before_network_witness :
  call_llm (ok_post "hi") (s2l "p") [(s2l "base_url", JStr (s2l "//"))] st_empty =
    (Raise (RuntimeError NoBaseUrl), st_empty) /\
  call_llm (ok_post "hi") (s2l "p") [(s2l "base_url", JNull)] st_empty =
    (Raise AttributeError, st_empty) /\
  call_llm (ok_post "hi") (s2l "p") [(s2l "model", JStr [])] st_empty =
    (Raise (RuntimeError NoModel), st_empty) /\
  _validate_api_config [] =
    Ok (s2l "https://api.openai.com/v1", JStr (s2l "gpt-3.5-turbo"),
        obj_get_default [] (s2l "api_key") (JStr [])).
Proof.
  destruct (config_errors_before_network (ok_post "hi") (s2l "p")
              [(s2l "base_url", JStr (s2l "//"))] st_empty) as [H1 _].
  destruct (config_errors_before_network (ok_post "hi") (s2l "p")
              [(s2l "base_url", JNull)] st_empty) as [_ [H2 _]].
  destruct (config_errors_before_network (ok_post "hi") (s2l "p")
              [(s2l "model", JStr [])] st_empty) as [_ [_ [H3 _]]].
  destruct (config_errors_before_network (ok_post "hi") (s2l "p") [] st_empty)
    as [_ [_ [_ H4]]].
  split; [| split; [| split]].
  - apply (H1 (s2l "//")); vm_compute; reflexivity.
  - apply (H2 JNull); [vm_compute; reflexivity | intros b Hb; discriminate Hb].
  - apply (H3 (JStr [])); [vm_compute; reflexivity | vm_compute; reflexivity | ].
    vm_compute; exact I.
  - apply H4; vm_compute; reflexivity.
Defined.

End ClientProofs.

(* ================================================================= *)
(** * Properties of [review_code] and of the requests *)

Module EntryProofs.
Import Reviewer ReviewEntry Fixtures ExtraFixtures StrFacts ResponseProofs ClientProofs.

Lemma startswith_nil : forall s, startswith s [] = true.
Proof. now destruct s. Qed.

Lemma split1_nosep : forall c x t cur, ~ In c x ->
  split_scan [c] (x ++ t) cur 0 = split_scan [c] t (rev x ++ cur) 0.
Proof.
  intros c; induction x as [| a x IH]; intros t cur Hn; [reflexivity |].
  cbn [app split_scan].
  replace (startswith (a :: x ++ t) [c]) with false.
  - rewrite IH by (intro; apply Hn; now right). cbn [rev]; now rewrite <- app_assoc.
  - cbn; rewrite startswith_nil, andb_true_r; symmetry; apply Z.eqb_neq; intro; subst; apply Hn; now left.
Qed.

Lemma split1_sep : forall c t cur,
  split_scan [c] (c :: t) cur 0 = rev cur :: split_scan [c] t [] 0.
Proof. intros c t cur; cbn; now rewrite Z.eqb_refl, startswith_nil. Qed.

Lemma split1_length : forall c s cur,
  List.length (split_scan [c] s cur 0) = S (List.length (filter (Z.eqb c) s)).
Proof.
  intros c; induction s as [| a s IH]; intros cur; [reflexivity |].
  cbn [split_scan].
  replace (startswith (a :: s) [c]) with (c =? a) by (cbn; now rewrite startswith_nil, andb_true_r).
  cbn [filter]; destruct (c =? a); cbn [List.length pred]; now rewrite IH.
Qed.

Lemma validate_code_ok : forall c x,
  _validate_code_input c = Ok x -> x = strip c /\ strip c <> [].
Proof.
  intros c x H; unfold _validate_code_input in H.
  destruct (str_eqb c [] || str_eqb (strip c) []) eqn:E; inversion H; subst.
  split; [reflexivity |]; intro He; rewrite He in E; now rewrite orb_true_r in E.
Qed.

Lemma validate_code_nonblank : forall c,
  strip c <> [] -> _validate_code_input c = Ok (strip c).
Proof.
  intros c Hc; unfold _validate_code_input.
  destruct c as [| x c]; [contradiction Hc; reflexivity |].
  destruct (strip (x :: c)) eqn:E; [contradiction | reflexivity].
Qed.

Lemma parse_review_response_ok : forall raw r,
  parse_review_response raw = Ok r -> 0 <= score r <= 10 /\ files_reviewed r = 0.
Proof.
  intros raw r H; unfold parse_review_response in H.
  destruct (json_loads _) as [data | e].
  - destruct data; try discriminate.
    destruct (py_iter _) as [items | e]; simpl in H; [| discriminate].
    destruct (score_of _) as [z | e] eqn:Hs; simpl in H; [| discriminate].
    inversion H; subst; simpl; split; [eapply score_of_bounds; eassumption | reflexivity].
  - destruct e; try discriminate; inversion H; subst; simpl; split; lia || reflexivity.
Qed.

Lemma call_llm_hit : forall post prompt config st b m a key v,
  _validate_api_config config = Ok (b, m, a) ->
  _get_cache_key prompt m = Ok key ->
  cache_lookup (cache st) key = Some v ->
  call_llm post prompt config st = (Ok v, st).
Proof. intros * Hv Hk Hl; unfold call_llm; now rewrite Hv, Hk, Hl. Qed.

Lemma call_llm_again : forall post post' prompt config st v st1,
  call_llm post prompt config st = (Ok v, st1) ->
  call_llm post' prompt config st1 = (Ok v, st1).
Proof.
  intros post post' prompt config st v st1 H.
  destruct (call_llm_cache_cases _ _ _ _ _ _ H)
    as [[_ Hh] | (b & m & a & key & v' & Hv & Hk & Hl & Hr & Hc)].
  - destruct (Hh v eq_refl) as (b & m & a & key & Hv & Hk & Hl & ->).
    eapply call_llm_hit; eassumption.
  - inversion Hr; subst v'.
    apply (call_llm_hit _ _ _ _ b m a key); [exact Hv | exact Hk |].
    rewrite Hc; unfold insert_entry; apply cache_lookup_app_new.
    destruct (Nat.leb _ _); [now apply cache_lookup_tl | exact Hl].
Qed.

Lemma lookup_none_not_in : forall c k,
  cache_lookup c k = None -> ~ In k (map fst c).
Proof.
  induction c as [| [k' v] c IH]; intros k H Hin; [exact Hin |].
  simpl in H, Hin; destruct Hin as [-> | Hin].
  - now rewrite str_eqb_refl in H.
  - destruct (str_eqb k' k); [discriminate | exact (IH k H Hin)].
Qed.

Lemma str_eqb_true : forall a b, str_eqb a b = true <-> a = b.
Proof. split; [apply str_eqb_eq | intros ->; apply str_eqb_refl]. Qed.

Lemma nodupb_NoDup : forall l, nodupb l = true -> NoDup l.
Proof.
  induction l as [| x l IH]; simpl; intros H; constructor.
  - apply andb_prop in H as [H _]; intro Hin.
    assert (existsb (str_eqb x) l = true) by (apply existsb_exists; exists x; split; [exact Hin | apply str_eqb_refl]).
    rewrite H0 in H; discriminate.
  - apply andb_prop in H as [_ H]; now apply IH.
Qed.


(** [review_code] on a text that is empty or white space only raises
    ValueError before any request, with the cache untouched. *)
Theorem review_code_blank_input : forall post code config is_diff st,
  strip code = [] -> review_code post code config is_diff st = (Raise ValueError, st).
Proof.
  intros post code config is_diff st H.
  unfold review_code, _validate_code_input; rewrite H; simpl.
  now rewrite orb_true_r.
Qed.

Lemma review_code_blank_input_witness :
  review_code (ok_post "hi") (s2l " 	 ") [] false st_empty = (Raise ValueError, st_empty).
Proof. apply review_code_blank_input; vm_compute; reflexivity. Defined.

(** A successful [review_code] reports as [lines_reviewed] one more than
    the number of line feeds of the stripped input, a score in [0, 10] and
    no reviewed files. *)
Theorem review_code_result_fields : forall post code config is_diff st r st',
  review_code post code config is_diff st = (Ok r, st') ->
  lines_reviewed r = Z.of_nat (S (count_nl (strip code))) /\
  0 <= score r <= 10 /\ files_reviewed r = 0.
Proof.
  intros post code config is_diff st r st' H; unfold review_code in H.
  destruct (_validate_code_input code) as [clean | e] eqn:Hv; [| discriminate].
  apply validate_code_ok in Hv as [-> _].
  destruct (call_llm _ _ _ _) as [[raw | e] st1]; [| discriminate].
  destruct raw; try discriminate.
  destruct (parse_review_response s) as [r0 | e] eqn:Hp; inversion H; subst; clear H.
  apply parse_review_response_ok in Hp as [Hs Hf]; simpl.
  split; [| split; assumption].
  unfold split, count_nl; now rewrite split1_length.
Qed.

Lemma review_code_result_fields_witness :
  exists r st', review_code (ok_post "{\'score\': 12}") (s2l "a
b
") [] false st_empty = (Ok r, st') /\
  lines_reviewed r = Z.of_nat (S (count_nl (strip (s2l "a
b
")))) /\ 0 <= score r <= 10 /\ files_reviewed r = 0.
Proof.
  destruct (review_code (ok_post "{\'score\': 12}") (s2l "a
b
") [] false st_empty) as [[r | e] st'] eqn:E.
  - exists r, st'; split; [reflexivity |].
    exact (review_code_result_fields _ _ _ _ _ _ _ E).
  - vm_compute in E; discriminate E.
Defined.

(** Only the first 8000 code points of the stripped input reach the
    model: after a successful review, reviewing any input that agrees with
    it there sends no request, leaves the state as it is and gives the
    same summary, issues and score. *)
Theorem review_code_truncated_prefix_cached : forall post post' c1 c2 config is_diff st r1 st1,
  firstn 8000 (strip c1) = firstn 8000 (strip c2) ->
  review_code post c1 config is_diff st = (Ok r1, st1) ->
  exists r2, review_code post' c2 config is_diff st1 = (Ok r2, st1) /\
    summary r2 = summary r1 /\ issues r2 = issues r1 /\ score r2 = score r1.
Proof.
  intros post post' c1 c2 config is_diff st r1 st1 Hpre H; unfold review_code in *.
  destruct (_validate_code_input c1) as [clean | e] eqn:Hv; [| discriminate].
  apply validate_code_ok in Hv as [-> Hne].
  assert (Hne2 : strip c2 <> []).
  { intro He; rewrite He in Hpre; destruct (strip c1); [contradiction | discriminate]. }
  rewrite (validate_code_nonblank c2 Hne2), <- Hpre.
  destruct (call_llm post _ _ _) as [[raw | e] st2] eqn:Hc; [| discriminate].
  destruct raw; try discriminate.
  destruct (parse_review_response s) as [r0 | e] eqn:Hp; inversion H; subst; clear H.
  rewrite (call_llm_again _ post' _ _ _ _ _ Hc), Hp.
  eexists; split; [reflexivity | simpl; repeat split].
Qed.

Lemma review_code_truncated_prefix_cached_witness :
  exists r1 st1 r2,
    review_code (ok_post "{\'score\': 8}") (long_a ++ s2l "b") [] false st_empty = (Ok r1, st1) /\
    review_code (fun _ => PostConnectionError) (long_a ++ s2l "c") [] false st1 = (Ok r2, st1) /\
    summary r2 = summary r1 /\ issues r2 = issues r1 /\ score r2 = score r1.
Proof.
  destruct (review_code (ok_post "{\'score\': 8}") (long_a ++ s2l "b") [] false st_empty)
    as [[r1 | e] st1] eqn:E.
  - destruct (review_code_truncated_prefix_cached (ok_post "{\'score\': 8}")
                (fun _ => PostConnectionError) (long_a ++ s2l "b") (long_a ++ s2l "c")
                [] false st_empty r1 st1) as (r2 & H2 & Hs & Hi & Hsc).
    + vm_compute; reflexivity.
    + exact E.
    + exists r1, st1, r2; repeat split; assumption.
  - vm_compute in E; discriminate E.
Defined.

(** Once a reply has been cached, a review that fails on it (a message
    content that is not a [str], or a reply [parse_review_response] raises
    on) fails again in the same way on every identical call, without a
    request, whatever the server would now answer. *)
Theorem review_code_cached_failure_repeats : forall post post' code config is_diff st e st1,
  review_code post code config is_diff st = (Raise e, st1) ->
  cache st1 <> cache st ->
  review_code post' code config is_diff st1 = (Raise e, st1).
Proof.
  intros post post' code config is_diff st e st1 H Hch; unfold review_code in *.
  destruct (_validate_code_input code) as [clean | e'] eqn:Hv;
    [| inversion H; subst; contradiction Hch; reflexivity].
  destruct (call_llm post _ _ _) as [[raw | e'] st2] eqn:Hc.
  - assert (st2 = st1) as <-.
    { destruct raw; try (inversion H; reflexivity).
      destruct (parse_review_response s); inversion H; reflexivity. }
    rewrite (call_llm_again _ post' _ _ _ _ _ Hc).
    destruct raw; try (inversion H; subst; reflexivity).
  - inversion H; subst.
    destruct (call_llm_cache_cases _ _ _ _ _ _ Hc) as [[Hs _] | (b & m & a & key & v & _ & _ & _ & Hr & _)].
    + contradiction.
    + discriminate Hr.
Qed.

Lemma review_code_cached_failure_repeats_witness :
  review_code (fun _ => PostConnectionError) (s2l "x") [] false
    (snd (review_code null_post (s2l "x") [] false st_empty)) =
  (Raise AttributeError, snd (review_code null_post (s2l "x") [] false st_empty)).
Proof.
  apply (review_code_cached_failure_repeats null_post _ _ _ _ st_empty).
  - vm_compute; reflexivity.
  - vm_compute; intro H; discriminate H.
Defined.



(** Whenever the request [call_llm] sends is answered with an HTTP error
    status (400 to 599), the call raises the RuntimeError "API error" with
    status 0 (the error response is falsy, so its status is never read)
    and caches nothing. *)
Theorem call_llm_http_error_status : forall post prompt config st r st' req status body,
  call_llm post prompt config st = (r, st') ->
  posts st' = posts st ++ [req] ->
  post req = PostResponse status body ->
  400 <= status < 600 ->
  r = Raise (RuntimeError (ApiError 0)) /\ cache st' = cache st.
Proof.
  intros post prompt config st r st' req status body H Hp Hpost Hs.
  unfold call_llm in H.
  split_call H; inversion H; subst; clear H; simpl in Hp;
    try (apply (f_equal (@List.length _)) in Hp; rewrite length_app in Hp; simpl in Hp; lia);
    apply app_inv_head in Hp; inversion Hp; subst; clear Hp; try congruence;
    match goal with H1 : ?x = PostResponse _ _, H2 : ?x = PostResponse _ _ |- _ =>
      rewrite H1 in H2; inversion H2; subst end;
    try (split; reflexivity);
    match goal with E : (_ <=? _) && (_ <? _) = false |- _ =>
      apply andb_false_iff in E; destruct E as [E | E];
      [apply Z.leb_gt in E | apply Z.ltb_ge in E]; lia end.
Qed.

Lemma call_llm_http_error_status_witness :
  fst (call_llm (status_post 503) (s2l "p") [] st_empty) = Raise (RuntimeError (ApiError 0)) /\
  cache (snd (call_llm (status_post 503) (s2l "p") [] st_empty)) = cache st_empty.
Proof.
  apply (call_llm_http_error_status (status_post 503) (s2l "p") [] st_empty _ _
           {| url := s2l "https://api.openai.com/v1/chat/completions";
              json_body := match _build_payload (s2l "p") (JStr (s2l "gpt-3.5-turbo")) [] with
                           | Ok v => v | Raise _ => JNull end;
              headers := _build_headers (JStr []) |} 503 []).
  - apply surjective_pairing.
  - vm_compute; reflexivity.
  - reflexivity.
  - lia.
Defined.

End EntryProofs.

(* ================================================================= *)
(** * [git_utils.py]: the diff tokenizer and the git helpers *)

Module GitProofs.
Import Reviewer GitUtils GitMore ExtraFixtures StrFacts DiffProofs EntryProofs.

Lemma no_lf_not_in : forall l, no_lf l = true -> ~ In 10 l.
Proof.
  intros l H Hin; unfold no_lf in H; apply negb_true_iff in H.
  assert (existsb (Z.eqb 10) l = true) by (apply existsb_exists; exists 10; split; [exact Hin | apply Z.eqb_refl]).
  congruence.
Qed.

Lemma split1_join : forall c xs x cur,
  ~ In c x -> (forall y, In y xs -> ~ In c y) ->
  split_scan [c] (x ++ List.concat (map (fun y => c :: y) xs)) cur 0 = (rev cur ++ x) :: xs.
Proof.
  intros c; induction xs as [| y xs IH]; intros x cur Hx Hxs; cbn [map List.concat].
  - rewrite split1_nosep by exact Hx; simpl.
    now rewrite rev_app_distr, rev_involutive.
  - rewrite split1_nosep by exact Hx; cbn [app].
    rewrite split1_sep, rev_app_distr, rev_involutive.
    rewrite IH; [reflexivity | apply Hxs; now left | intros z Hz; apply Hxs; now right].
Qed.

(** Splitting the lines joined with line feeds gives them back. *)
Lemma split_join_nl : forall L,
  L <> [] -> forallb no_lf L = true -> split (join_nl L) [10] = L.
Proof.
  intros [| x xs] Hne H; [congruence |].
  simpl in H; apply andb_prop in H as [Hx Hxs].
  unfold split, join_nl; rewrite split1_join; [reflexivity | now apply no_lf_not_in |].
  intros y Hy; apply no_lf_not_in; rewrite forallb_forall in Hxs; auto.
Qed.

Lemma startswith_hd : forall l a p, startswith l (a :: p) = true -> hd_error l = Some a.
Proof.
  intros [| c l] a p H; simpl in H; [discriminate |].
  apply andb_prop in H as [H _]; apply Z.eqb_eq in H; now subst.
Qed.

Lemma added_of_cons : forall l ls, added_of (l :: ls) = added_of [l] ++ added_of ls.
Proof. intros; unfold added_of; simpl; destruct (is_added l); reflexivity. Qed.

Lemma removed_of_cons : forall l ls, removed_of (l :: ls) = removed_of [l] ++ removed_of ls.
Proof. intros; unfold removed_of; simpl; destruct (is_removed l); reflexivity. Qed.

(** A line that is not a header adds itself to the current content and,
    when it is an added or removed line, its text to that list. *)
Lemma step_body : forall hs cf cc ad rm l,
  is_header l = false ->
  step (mkParseState hs cf cc ad rm) l =
  mkParseState hs cf (cc ++ [l]) (ad ++ added_of [l]) (rm ++ removed_of [l]).
Proof.
  intros hs cf cc ad rm l H; unfold step; cbv beta iota zeta.
  unfold is_header in H; rewrite H; unfold added_of, removed_of; simpl filter.
  destruct (startswith l (s2l "@@")) eqn:E1.
  - assert (Hh : hd_error l = Some 64) by exact (startswith_hd l 64 [64] E1).
    assert (Ha : is_added l = false).
    { unfold is_added; destruct (startswith l (s2l "+")) eqn:E; [| reflexivity].
      pose proof (startswith_hd l 43 [] E); congruence. }
    assert (Hr : is_removed l = false).
    { unfold is_removed; destruct (startswith l (s2l "-")) eqn:E; [| reflexivity].
      pose proof (startswith_hd l 45 [] E); congruence. }
    rewrite Ha, Hr; simpl; now rewrite !app_nil_r.
  - destruct (startswith l (s2l "+") && negb (startswith l (s2l "+++"))) eqn:E2.
    + assert (Ha : is_added l = true) by exact E2.
      assert (Hr : is_removed l = false).
      { unfold is_removed; destruct (startswith l (s2l "-")) eqn:E; [| reflexivity].
        apply andb_prop in E2 as [E2 _].
        pose proof (startswith_hd l 43 [] E2); pose proof (startswith_hd l 45 [] E); congruence. }
      rewrite Ha, Hr; simpl; now rewrite app_nil_r.
    + assert (Ha : is_added l = false) by exact E2.
      rewrite Ha; unfold is_removed.
      destruct (startswith l (s2l "-") && negb (startswith l (s2l "---"))); simpl;
        now rewrite ?app_nil_r.
Qed.

Lemma fold_body : forall ls hs cf cc ad rm,
  forallb (fun l => negb (is_header l)) ls = true ->
  fold_left step ls (mkParseState hs cf cc ad rm) =
  mkParseState hs cf (cc ++ ls) (ad ++ added_of ls) (rm ++ removed_of ls).
Proof.
  induction ls as [| l ls IH]; intros hs cf cc ad rm H; cbn [fold_left].
  - now rewrite !app_nil_r.
  - simpl in H; apply andb_prop in H as [Hl Hls]; apply negb_true_iff in Hl.
    rewrite step_body by exact Hl; rewrite IH by exact Hls.
    rewrite (added_of_cons l ls), (removed_of_cons l ls), <- !app_assoc; reflexivity.
Qed.

(** A header line emits the pending hunk and opens a new file. *)
Lemma step_header : forall st h,
  is_header h = true ->
  step st h = mkParseState (flush st) (Some (header_file h)) [] [] [].
Proof.
  intros [hs cf cc ad rm] h H; unfold step; cbv beta iota zeta.
  unfold is_header in H; rewrite H; reflexivity.
Qed.

Lemma fold_sections : forall secs st,
  forallb (fun sec => is_header (fst sec) && forallb (fun l => negb (is_header l)) (snd sec)) secs = true ->
  flush (fold_left step (flat_map (fun sec => fst sec :: snd sec) secs) st) =
  flush st ++ flat_map section_hunks secs.
Proof.
  induction secs as [| [h ls] secs IH]; intros st H; simpl.
  - now rewrite app_nil_r.
  - simpl in H; apply andb_prop in H as [H Hs]; apply andb_prop in H as [Hh Hls].
    rewrite fold_left_app; simpl fold_left.
    rewrite step_header, fold_body by assumption.
    rewrite IH by exact Hs; rewrite app_assoc; f_equal.
    unfold flush at 1, section_hunks; cbn [hunks current_file current_content added removed fst snd].
    rewrite !app_nil_l.
    destruct (_finalize_hunk (Some (header_file h)) ls (added_of ls) (removed_of ls));
      simpl; [reflexivity | now rewrite app_nil_r].
Qed.

Lemma parse_diff_flush : forall t, parse_diff t = flush (fold_left step (split t [10]) init_state).
Proof. reflexivity. Qed.

Lemma strip_snoc_space : forall x c, py_isspace c = true -> strip (x ++ [c]) = strip x.
Proof.
  intros x c Hc.
  assert (Hr : forall y, rstrip_by py_isspace (y ++ [c]) = rstrip_by py_isspace y).
  { intros y; unfold rstrip_by; rewrite rev_unit; simpl; now rewrite Hc. }
  unfold strip; induction x as [| a x IH]; simpl.
  - now rewrite Hc.
  - destruct (py_isspace a); [exact IH |].
    rewrite app_comm_cons; apply Hr.
Qed.

Lemma split1_pieces : forall c s cur,
  ~ In c cur -> forall p, In p (split_scan [c] s cur 0) -> ~ In c p.
Proof.
  intros c; induction s as [| a s IH]; intros cur Hcur p Hp.
  - destruct Hp as [<- | []]; intro Hin; apply Hcur, in_rev, Hin.
  - cbn [split_scan] in Hp.
    replace (startswith (a :: s) [c]) with (c =? a) in Hp by (cbn; now rewrite startswith_nil, andb_true_r).
    destruct (c =? a) eqn:E.
    + destruct Hp as [<- | Hp]; [intro Hin; apply Hcur, in_rev, Hin |].
      exact (IH [] (fun x => x) p Hp).
    + apply (IH (a :: cur)); [| exact Hp].
      intros [-> | Hin]; [rewrite Z.eqb_refl in E; discriminate | exact (Hcur Hin)].
Qed.

Lemma finalize_ok : forall cf cc ad rm h,
  _finalize_hunk cf cc ad rm = Some h -> hunk_ok h /\ cf <> None.
Proof.
  intros [f |] cc ad rm h H; simpl in H; [| discriminate].
  destruct (negb (str_eqb f []) && negb (Nat.eqb (List.length cc) 0)) eqn:E; [| discriminate].
  inversion H; subst; clear H; apply andb_prop in E as [E _]; apply negb_true_iff in E.
  split; [| discriminate]; repeat split; simpl; try reflexivity.
  intros ->; discriminate.
Qed.

Lemma step_nonheader_keeps : forall st l,
  is_header l = false ->
  hunks (step st l) = hunks st /\ current_file (step st l) = current_file st.
Proof.
  intros [hs cf cc ad rm] l H; rewrite step_body by exact H; split; reflexivity.
Qed.

Lemma fold_hunks_bound : forall ls st,
  Forall hunk_ok (hunks st) ->
  Forall hunk_ok (hunks (fold_left step ls st)) /\
  (pending (fold_left step ls st) <= pending st + List.length (filter is_header ls))%nat.
Proof.
  induction ls as [| l ls IH]; intros st Hst; simpl; [split; [exact Hst | lia] |].
  destruct (is_header l) eqn:Hl.
  - rewrite step_header by exact Hl.
    assert (Hf : Forall hunk_ok (flush st) /\
                 (List.length (flush st) <= pending st)%nat).
    { unfold flush, pending.
      match goal with |- context [_finalize_hunk ?a ?b ?c ?d] =>
        destruct (_finalize_hunk a b c d) as [h |] eqn:E end; simpl.
      - apply finalize_ok in E as [Hh Hcf].
        destruct (current_file st); [| congruence].
        rewrite length_app; simpl; split; [apply Forall_app; auto | lia].
      - split; [exact Hst | lia]. }
    destruct Hf as [Hf Hlen].
    destruct (IH (mkParseState (flush st) (Some (header_file l)) [] [] []) Hf) as [H1 H2].
    split; [exact H1 |].
    unfold pending at 2 in H2; simpl in H2; simpl; lia.
  - destruct (step_nonheader_keeps st l Hl) as [Hh Hc].
    assert (Hp : pending (step st l) = pending st) by (unfold pending; now rewrite Hh, Hc).
    rewrite <- Hh in Hst; destruct (IH _ Hst) as [H1 H2]; split; [exact H1 | lia].
Qed.

Lemma insert_by_perm : forall {A} (key : A -> Z) x l, Permutation (insert_by key x l) (x :: l).
Proof.
  intros A key x; induction l as [| y l IH]; simpl; [reflexivity |].
  destruct (key x <=? key y); [reflexivity |].
  rewrite IH; apply perm_swap.
Qed.

Lemma py_sorted_perm : forall {A} (key : A -> Z) l, Permutation (py_sorted key l) l.
Proof.
  intros A key; induction l as [| x l IH]; simpl; [reflexivity |].
  rewrite insert_by_perm; now apply perm_skip.
Qed.

Lemma insert_by_sorted : forall {A} (key : A -> Z) x l,
  Sorted (fun a b => key a <= key b) l ->
  Sorted (fun a b => key a <= key b) (insert_by key x l).
Proof.
  intros A key x; induction l as [| y l IH]; intros H; simpl; [repeat constructor |].
  destruct (key x <=? key y) eqn:E.
  - constructor; [exact H | constructor; now apply Z.leb_le].
  - apply Z.leb_gt in E; apply Sorted_inv in H as [Hs Hr].
    constructor; [now apply IH |].
    destruct l as [| z l]; simpl; [constructor; lia |].
    destruct (key x <=? key z); constructor; [lia |]; now inversion Hr.
Qed.

Lemma py_sorted_sorted : forall {A} (key : A -> Z) l,
  Sorted (fun a b => key a <= key b) (py_sorted key l).
Proof.
  intros A key; induction l as [| x l IH]; simpl; [constructor |].
  now apply insert_by_sorted.
Qed.

Lemma Sorted_firstn_prefix : forall {A} (R : A -> A -> Prop) n l,
  Sorted R l -> Sorted R (firstn n l).
Proof.
  intros A R n l; revert n; induction l as [| a l IH]; intros [| n] H; simpl; try constructor.
  - apply Sorted_inv in H as [H _]; now apply IH.
  - apply Sorted_inv in H as [_ H]; destruct n, l; simpl; constructor; now inversion H.
Qed.

Lemma Sorted_weaken : forall {A} (R R' : A -> A -> Prop) l,
  (forall a b, R a b -> R' a b) -> Sorted R l -> Sorted R' l.
Proof.
  intros A R R' l HR H; induction H as [| a l H IH Hd]; constructor; [exact IH |].
  destruct Hd; constructor; auto.
Qed.

Lemma in_firstn_in : forall {A} n (l : list A) x, In x (firstn n l) -> In x l.
Proof. intros A n l x H; rewrite <- (firstn_skipn n l); apply in_or_app; now left. Qed.

Lemma NoDup_firstn_prefix : forall {A} n (l : list A), NoDup l -> NoDup (firstn n l).
Proof.
  intros A n l; revert n; induction l as [| a l IH]; intros [| n] H; simpl; try constructor.
  - inversion H; subst; intro Hin; apply H2; eapply in_firstn_in; eassumption.
  - inversion H; subst; now apply IH.
Qed.

Lemma dict_incr_keys : forall d k,
  (In k (map fst d) -> map fst (dict_incr d k) = map fst d) /\
  (~ In k (map fst d) -> map fst (dict_incr d k) = map fst d ++ [k]).
Proof.
  induction d as [| [k' n] d IH]; intros k; simpl; [split; [intros [] | reflexivity] |].
  destruct (str_eqb k' k) eqn:E.
  - apply str_eqb_eq in E; subst; split; [reflexivity | intros H; contradiction H; now left].
  - destruct (IH k) as [H1 H2]; split.
    + intros [-> | Hin]; [now rewrite str_eqb_refl in E |]; simpl; now rewrite H1.
    + intros Hn; simpl; rewrite H2; [reflexivity | intro; apply Hn; now right].
Qed.

Lemma dict_incr_nodup : forall d k, NoDup (map fst d) -> NoDup (map fst (dict_incr d k)).
Proof.
  intros d k H; destruct (in_dec (list_eq_dec Z.eq_dec) k (map fst d)) as [Hin | Hn].
  - now rewrite (proj1 (dict_incr_keys d k) Hin).
  - rewrite (proj2 (dict_incr_keys d k) Hn).
    apply Permutation_NoDup with (k :: map fst d); [apply Permutation_cons_append |].
    now constructor.
Qed.

Lemma dict_incr_sum : forall d k, zsum (map snd (dict_incr d k)) = zsum (map snd d) + 1.
Proof.
  induction d as [| [k' n] d IH]; intros k; simpl; [reflexivity |].
  destruct (str_eqb k' k); simpl; [lia | rewrite IH; lia].
Qed.

Lemma dict_incr_pos : forall d k,
  Forall (fun e => 1 <= snd e) d -> Forall (fun e => 1 <= snd e) (dict_incr d k).
Proof.
  induction d as [| [k' n] d IH]; intros k H; simpl; [repeat constructor; simpl; lia |].
  inversion H; subst; destruct (str_eqb k' k); constructor; simpl in *; auto; lia.
Qed.

Lemma count_extensions_facts : forall py_lower files acc,
  NoDup (map fst acc) -> Forall (fun e => 1 <= snd e) acc ->
  let r := fold_left (fun ext f =>
               if contains f (s2l ".") then dict_incr ext (py_lower (after_last_dot f))
               else ext) files acc in
  NoDup (map fst r) /\ Forall (fun e => 1 <= snd e) r /\
  zsum (map snd r) = zsum (map snd acc) + Z.of_nat (List.length (filter (fun f => contains f (s2l ".")) files)).
Proof.
  intros py_lower; induction files as [| f files IH]; intros acc Hn Hp; simpl.
  - repeat split; auto; lia.
  - destruct (contains f (s2l ".")).
    + destruct (IH _ (dict_incr_nodup _ (py_lower (after_last_dot f)) Hn)
                    (dict_incr_pos _ (py_lower (after_last_dot f)) Hp)) as (H1 & H2 & H3).
      repeat split; auto; rewrite H3, dict_incr_sum; cbn [Datatypes.length]; lia.
    + apply IH; auto.
Qed.

Lemma zsum_perm : forall l l', Permutation l l' -> zsum l = zsum l'.
Proof. intros l l' H; induction H; simpl; lia. Qed.

Lemma zsum_app : forall l l', zsum (l ++ l') = zsum l + zsum l'.
Proof. induction l; intros; simpl; [lia | rewrite IHl; lia]. Qed.

Lemma zsum_nonneg : forall (l : list (pystr * Z)),
  Forall (fun e => 1 <= snd e) l -> 0 <= zsum (map snd l).
Proof. intros l H; induction H; simpl; lia. Qed.

Lemma in_skipn_in : forall {A} n (l : list A) x, In x (skipn n l) -> In x l.
Proof. intros A n l x H; rewrite <- (firstn_skipn n l); apply in_or_app; now right. Qed.

(** [parse_diff] on a diff of well-formed lines: every header line opens a
    section, the lines before the first header are dropped, and each
    section gives at most one hunk, for the file named after the last
    [" b/"] of its header, with the section's lines as content, and the
    added and removed lines with their first character cut. *)
Theorem parse_diff_sections : forall pre secs,
  forallb (fun l => negb (is_header l)) pre = true ->
  forallb (fun sec => is_header (fst sec) && forallb (fun l => negb (is_header l)) (snd sec)) secs = true ->
  forallb no_lf (diff_lines pre secs) = true ->
  parse_diff (join_nl (diff_lines pre secs)) = flat_map section_hunks secs.
Proof.
  intros pre secs Hpre Hsecs Hlf.
  destruct (diff_lines pre secs) as [| x xs] eqn:E.
  - unfold diff_lines in E; apply app_eq_nil in E as [-> E].
    destruct secs as [| sec secs]; [reflexivity | discriminate E].
  - rewrite parse_diff_flush, split_join_nl by first [discriminate | exact Hlf].
    rewrite <- E; unfold diff_lines; rewrite fold_left_app.
    change init_state with (mkParseState [] None [] [] []).
    rewrite fold_body by exact Hpre; rewrite fold_sections by exact Hsecs.
    reflexivity.
Qed.

Lemma parse_diff_sections_witness :
  parse_diff (join_nl (diff_lines [s2l "index 1..2"]
    [(s2l "diff --git a/x b/y", [s2l "@@ -1 +1 @@"; s2l "-a"; s2l "+b"; s2l "+++ c"]);
     (s2l "diff --git a/z b/z", [])])) =
  flat_map section_hunks
    [(s2l "diff --git a/x b/y", [s2l "@@ -1 +1 @@"; s2l "-a"; s2l "+b"; s2l "+++ c"]);
     (s2l "diff --git a/z b/z", [])].
Proof. apply parse_diff_sections; vm_compute; reflexivity. Defined.

(** For any text, every hunk [parse_diff] returns has a non-empty file
    name and start lines [0], and there are no more hunks than lines
    starting with [diff --git]. *)
Theorem parse_diff_hunk_bounds : forall t,
  Forall hunk_ok (parse_diff t) /\
  (List.length (parse_diff t) <= List.length (filter is_header (split t [10%Z])))%nat.
Proof.
  intros t; rewrite parse_diff_flush.
  destruct (fold_hunks_bound (split t [10]) init_state (Forall_nil _)) as [H1 H2].
  revert H1 H2; generalize (fold_left step (split t [10]) init_state); intros st H1 H2.
  unfold pending at 2 in H2; simpl in H2; unfold flush, pending in *.
  destruct (_finalize_hunk (current_file st) (current_content st) (added st) (removed st))
    as [h |] eqn:E; simpl.
  - apply finalize_ok in E as [Hh Hcf].
    destruct (current_file st); [| congruence].
    rewrite length_app; simpl; split; [apply Forall_app; auto | lia].
  - split; [exact H1 | lia].
Qed.

(** [get_changed_files] never returns an empty name nor one with a line
    feed. *)
Theorem get_changed_files_names : forall run_git ref f,
  In f (get_changed_files run_git ref) -> f <> [] /\ ~ In 10 f.
Proof.
  intros run_git ref f H; unfold get_changed_files in H; cbv zeta in H.
  apply filter_In in H as [Hin Hne]; split.
  - intros ->; discriminate Hne.
  - exact (split1_pieces 10 _ [] (fun x => x) f Hin).
Qed.

Lemma get_changed_files_names_witness : s2l "a.py" <> [] /\ ~ In 10 (s2l "a.py").
Proof.
  apply (get_changed_files_names (fun _ => s2l "a.py" ++ [10; 10]) None).
  vm_compute; left; reflexivity.
Defined.

(** When git lists non-empty names without line feeds, one per line, and
    the first and last names have no surrounding white space,
    [get_changed_files] returns exactly those names, in order. *)
Theorem get_changed_files_roundtrip : forall fs ref,
  forallb (fun f => negb (str_eqb f []) && no_lf f) fs = true ->
  strip (join_nl fs) = join_nl fs ->
  get_changed_files (fun _ => join_nl fs ++ [10]) ref = fs.
Proof.
  intros fs ref Hf Hs.
  assert (Hout : filter (fun f => negb (str_eqb f [])) (split (strip (join_nl fs ++ [10])) [10]) = fs).
  { rewrite strip_snoc_space, Hs by reflexivity.
    destruct fs as [| x xs]; [reflexivity |].
    rewrite split_join_nl.
    - apply forallb_filter_id; rewrite forallb_forall in *; intros a Ha.
      specialize (Hf a Ha); apply andb_prop in Hf as [Hf _]; exact Hf.
    - discriminate.
    - rewrite forallb_forall in *; intros a Ha.
      specialize (Hf a Ha); apply andb_prop in Hf as [_ Hf]; exact Hf. }
  unfold get_changed_files; destruct ref as [r |]; [destruct (negb (str_eqb r [])) |]; exact Hout.
Qed.

Lemma get_changed_files_roundtrip_witness :
  get_changed_files (fun _ => join_nl [s2l "a.py"; s2l "src/b c.py"] ++ [10]) None =
  [s2l "a.py"; s2l "src/b c.py"].
Proof. apply get_changed_files_roundtrip; vm_compute; reflexivity. Defined.

(** [get_repo_language_stats] returns at most 10 extensions, pairwise
    distinct, with counts of at least 1 in non-increasing order; the counts
    add up to at most the number of listed names that contain a dot, and
    to exactly that number when fewer than 10 extensions are returned. *)
Theorem get_repo_language_stats_invariants : forall run_git py_lower,
  let stats := get_repo_language_stats run_git py_lower in
  let dotted := Z.of_nat (List.length (filter (fun f => contains f (s2l "."))
                            (split (strip (run_git [s2l "ls-files"])) [10]))) in
  (List.length stats <= 10)%nat /\
  Sorted (fun a b => snd b <= snd a) stats /\
  Forall (fun e => 1 <= snd e) stats /\
  NoDup (map fst stats) /\
  zsum (map snd stats) <= dotted /\
  ((List.length stats < 10)%nat -> zsum (map snd stats) = dotted).
Proof.
  intros run_git py_lower; cbv zeta; unfold get_repo_language_stats; cbv zeta.
  set (files := split (strip (run_git [s2l "ls-files"])) [10]).
  destruct (count_extensions_facts py_lower files [] (NoDup_nil _) (Forall_nil _)) as (Hn & Hp & Hs).
  change (fold_left _ files []) with (count_extensions py_lower files) in Hn, Hp, Hs.
  set (c := count_extensions py_lower files) in *.
  assert (Hperm := py_sorted_perm (fun x : pystr * Z => - snd x) c).
  set (srt := py_sorted (fun x : pystr * Z => - snd x) c) in *.
  assert (Hp' : Forall (fun e => 1 <= snd e) srt).
  { rewrite Forall_forall in *; intros e He; apply Hp; now apply (Permutation_in _ Hperm). }
  assert (Hs' : zsum (map snd srt) = Z.of_nat (List.length (filter (fun f => contains f (s2l ".")) files))).
  { rewrite (zsum_perm _ _ (Permutation_map snd Hperm)), Hs; reflexivity. }
  repeat split.
  - apply firstn_le_length.
  - apply Sorted_firstn_prefix; eapply Sorted_weaken; [| apply py_sorted_sorted].
    simpl; intros; lia.
  - rewrite Forall_forall in *; intros e He; apply Hp'; eapply in_firstn_in; eassumption.
  - rewrite <- firstn_map; apply NoDup_firstn_prefix.
    apply (Permutation_NoDup (Permutation_map fst (Permutation_sym Hperm))); exact Hn.
  - rewrite <- Hs'.
    assert (zsum (map snd srt) = zsum (map snd (firstn 10 srt)) + zsum (map snd (skipn 10 srt)))
      by (rewrite <- zsum_app, <- map_app, firstn_skipn; reflexivity).
    assert (0 <= zsum (map snd (skipn 10 srt))); [| lia].
    apply zsum_nonneg; rewrite Forall_forall in *; intros e He; apply Hp'; eapply in_skipn_in; eassumption.
  - intros Hlt; rewrite firstn_all2; [exact Hs' |].
    rewrite length_firstn in Hlt; lia.
Qed.

Lemma get_repo_language_stats_invariants_witness :
  let stats := get_repo_language_stats (fun _ => join_nl [s2l "a.py"; s2l "b.PY"; s2l "c.rs"; s2l "Makefile"]) lower in
  let dotted := Z.of_nat (List.length (filter (fun f => contains f (s2l "."))
                  (split (strip (join_nl [s2l "a.py"; s2l "b.PY"; s2l "c.rs"; s2l "Makefile"])) [10]))) in
  (List.length stats <= 10)%nat /\
  Sorted (fun a b => snd b <= snd a) stats /\
  Forall (fun e => 1 <= snd e) stats /\
  NoDup (map fst stats) /\
  zsum (map snd stats) <= dotted /\
  ((List.length stats < 10)%nat -> zsum (map snd stats) = dotted).
Proof. exact (get_repo_language_stats_invariants (fun _ => join_nl [s2l "a.py"; s2l "b.PY"; s2l "c.rs"; s2l "Makefile"]) lower). Defined.

End GitProofs.

(* ================================================================= *)
(** * [config.py] and the configuration steps of [cli.py] *)

Module ConfigProofs.
Import Reviewer ConfigPy Cli ExtraFixtures StrFacts EntryProofs.

Lemma str_eqb_false : forall a b, str_eqb a b = false <-> a <> b.
Proof.
  intros a b; split.
  - intros H ->; now rewrite str_eqb_refl in H.
  - intros H; destruct (str_eqb a b) eqn:E; [apply str_eqb_eq in E; contradiction | reflexivity].
Qed.

Lemma str_eqb_sym : forall a b, str_eqb a b = str_eqb b a.
Proof.
  intros a b; destruct (str_eqb a b) eqn:E, (str_eqb b a) eqn:F; auto.
  - apply str_eqb_eq in E; subst; now rewrite str_eqb_refl in F.
  - apply str_eqb_eq in F; subst; now rewrite str_eqb_refl in E.
Qed.

Lemma obj_get_notin : forall d k, ~ In k (map fst d) -> obj_get d k = None.
Proof.
  induction d as [| [a b] d IH]; intros k H; simpl; [reflexivity |].
  rewrite IH by (intro; apply H; now right).
  destruct (str_eqb a k) eqn:E; [apply str_eqb_eq in E; subst; contradiction H; now left | reflexivity].
Qed.

(** [d[k'] = v] leaves the other keys alone. *)
Lemma obj_get_set_other : forall d k' k v,
  k' <> k -> obj_get (dict_set d k' v) k = obj_get d k.
Proof.
  intros d k' k v Hne; apply str_eqb_false in Hne.
  induction d as [| [a b] d IH]; simpl; [now rewrite Hne |].
  destruct (str_eqb a k') eqn:E; simpl.
  - apply str_eqb_eq in E; subst a; now rewrite Hne.
  - now rewrite IH.
Qed.

Lemma obj_get_set_same : forall d k v,
  NoDup (map fst d) -> obj_get (dict_set d k v) k = Some v.
Proof.
  induction d as [| [a b] d IH]; intros k v Hd; simpl; [now rewrite str_eqb_refl |].
  inversion Hd as [| x y Hn Hd']; subst.
  destruct (str_eqb a k) eqn:E; simpl.
  - apply str_eqb_eq in E; subst a; now rewrite obj_get_notin, str_eqb_refl.
  - now rewrite IH.
Qed.

Lemma dict_set_keys : forall d k v,
  (In k (map fst d) -> map fst (dict_set d k v) = map fst d) /\
  (~ In k (map fst d) -> map fst (dict_set d k v) = map fst d ++ [k]).
Proof.
  induction d as [| [a b] d IH]; intros k v; simpl; [split; [intros [] | reflexivity] |].
  destruct (str_eqb a k) eqn:E.
  - apply str_eqb_eq in E; subst; split; [reflexivity | intros H; contradiction H; now left].
  - destruct (IH k v) as [H1 H2]; split.
    + intros [-> | Hin]; [now rewrite str_eqb_refl in E |]; simpl; now rewrite H1.
    + intros Hn; simpl; rewrite H2; [reflexivity | intro; apply Hn; now right].
Qed.

Lemma dict_set_nodup : forall d k v, NoDup (map fst d) -> NoDup (map fst (dict_set d k v)).
Proof.
  intros d k v H; destruct (in_dec (list_eq_dec Z.eq_dec) k (map fst d)) as [Hin | Hn].
  - now rewrite (proj1 (dict_set_keys d k v) Hin).
  - rewrite (proj2 (dict_set_keys d k v) Hn).
    apply Permutation_NoDup with (k :: map fst d); [apply Permutation_cons_append |].
    now constructor.
Qed.

Lemma dict_update_facts : forall kvs d,
  NoDup (map fst d) ->
  NoDup (map fst (dict_update d kvs)) /\
  forall k, obj_get (dict_update d kvs) k =
            match obj_get kvs k with Some w => Some w | None => obj_get d k end.
Proof.
  unfold dict_update; induction kvs as [| [k0 v0] kvs IH]; intros d Hd; simpl.
  - split; [exact Hd | reflexivity].
  - destruct (IH (dict_set d k0 v0) (dict_set_nodup _ _ _ Hd)) as [H1 H2].
    split; [exact H1 |]; intros k; rewrite H2.
    destruct (obj_get kvs k); [reflexivity |].
    destruct (str_eqb k0 k) eqn:E.
    + apply str_eqb_eq in E; subst; now apply obj_get_set_same.
    + apply str_eqb_false in E; now apply obj_get_set_other.
Qed.

Lemma nodup_map_filter : forall {A B} (f : A -> B) p l,
  NoDup (map f l) -> NoDup (map f (filter p l)).
Proof.
  intros A B f p; induction l as [| a l IH]; intros H; simpl; [constructor |].
  inversion H; subst; destruct (p a); simpl; [constructor |]; auto.
  intro Hin; apply H2; apply in_map_iff in Hin as (x & Hx & Hin).
  apply filter_In in Hin as [Hin _]; rewrite <- Hx; now apply in_map.
Qed.

Lemma obj_get_pop : forall d k0 k,
  obj_get (dict_pop d k0) k = if str_eqb k0 k then None else obj_get d k.
Proof.
  unfold dict_pop; induction d as [| [a b] d IH]; intros k0 k; simpl.
  - now destruct (str_eqb k0 k).
  - destruct (str_eqb a k0) eqn:E1; simpl.
    + apply str_eqb_eq in E1; subst a; rewrite IH.
      destruct (str_eqb k0 k); [reflexivity |]; now destruct (obj_get d k).
    + rewrite IH; destruct (str_eqb k0 k) eqn:E2; [| reflexivity].
      apply str_eqb_eq in E2; subst; now rewrite E1.
Qed.

(** The dict [_load_config_file] returns from a JSON object. *)
Lemma file_dict_facts : forall kvs,
  let fc := dict_pop (dict_update [] kvs) (s2l "api_key") in
  NoDup (map fst fc) /\
  forall k, obj_get fc k = if str_eqb (s2l "api_key") k then None else obj_get kvs k.
Proof.
  intros kvs; cbv zeta.
  destruct (dict_update_facts kvs [] (NoDup_nil _)) as [H1 H2]; split.
  - now apply nodup_map_filter.
  - intros k; rewrite obj_get_pop, H2; destruct (obj_get kvs k); reflexivity.
Qed.

Lemma load_config_file_nodup : forall f fc,
  _load_config_file f = Ok fc -> NoDup (map fst fc) /\ obj_get fc (s2l "api_key") = None.
Proof.
  intros f fc H; destruct f as [| | | txt]; simpl in H;
    [inversion H; subst; split; [constructor | reflexivity]
    |inversion H; subst; split; [constructor | reflexivity]
    |discriminate |].
  destruct (json_loads txt) as [[] | []]; try discriminate;
    try (inversion H; subst; split; [constructor | reflexivity]).
  inversion H; subst.
  match goal with |- context [dict_update [] ?kv] => destruct (file_dict_facts kv) as [Hn Hg] end.
  split; [exact Hn |].
  rewrite Hg, str_eqb_refl; reflexivity.
Qed.

Lemma default_config_nodup : NoDup (map fst DEFAULT_CONFIG).
Proof. apply nodupb_NoDup; vm_compute; reflexivity. Qed.

Lemma apply_provider_defaults_nodup : forall c c',
  NoDup (map fst c) -> _apply_provider_defaults c = Ok c' -> NoDup (map fst c').
Proof.
  intros c c' Hc H; unfold _apply_provider_defaults in H.
  destruct (provider_in _) as [[d |] | e]; simpl in H; inversion H; subst; [| exact Hc].
  repeat match goal with |- context [if ?b then _ else _] => destruct b end;
    repeat apply dict_set_nodup; exact Hc.
Qed.

Lemma nonblank_some : forall o k,
  nonblank o = Some k -> exists v, o = Some v /\ k = strip v /\ strip v <> [].
Proof.
  intros [v |] k H; simpl in H; [| discriminate].
  destruct (negb (str_eqb v []) && negb (str_eqb (strip v) [])) eqn:E; inversion H; subst.
  exists v; repeat split; apply andb_prop in E as [_ E].
  intro Hs; rewrite Hs in E; discriminate.
Qed.

Lemma nonblank_strip : forall v, strip v <> [] -> nonblank (Some v) = Some (strip v).
Proof.
  intros v H; simpl; destruct v as [| c v]; [contradiction H; reflexivity |].
  destruct (strip (c :: v)) eqn:E; [contradiction | reflexivity].
Qed.

Lemma get_api_key_origin : forall env c k,
  _get_api_key env c = Ok (Some k) -> exists name v, env name = Some v /\ k = strip v /\ strip v <> [].
Proof.
  intros env c k H; unfold _get_api_key in H.
  destruct (nonblank (env (s2l "CODEREVIEW_API_KEY"))) eqn:E.
  - inversion H; subst; apply nonblank_some in E as (v & Hv & -> & Hs); eauto.
  - destruct (provider_in _) as [[d |] | e]; simpl in H; try discriminate.
    destruct (pd_env_key d) as [n |]; [| discriminate].
    destruct (negb (str_eqb n [])); [| discriminate]; inversion H.
    apply nonblank_some in H1 as (v & Hv & -> & Hs); eauto.
Qed.

Lemma get_api_key_override : forall env c v,
  env (s2l "CODEREVIEW_API_KEY") = Some v -> strip v <> [] ->
  _get_api_key env c = Ok (Some (strip v)).
Proof. intros env c v Hv Hs; unfold _get_api_key; now rewrite Hv, nonblank_strip. Qed.

Lemma get_api_key_str_provider : forall env c p,
  obj_get c (s2l "provider") = Some (JStr p) -> exists k, _get_api_key env c = Ok k.
Proof.
  intros env c p H; unfold _get_api_key, obj_get_default; rewrite H.
  destruct (nonblank _); [eauto |]; simpl.
  destruct (provider_lookup p) as [d |]; [| eauto].
  destruct (pd_env_key d); [destruct (negb _) |]; eauto.
Qed.

(** The shape of a configuration [load_config] returns. *)
Lemma load_config_shape : forall env f cfg,
  load_config env f = Ok cfg ->
  exists fc c1 key,
    _load_config_file f = Ok fc /\
    _apply_provider_defaults (dict_update DEFAULT_CONFIG fc) = Ok c1 /\
    NoDup (map fst c1) /\
    _get_api_key env c1 = Ok key /\
    cfg = match env (s2l "CODEREVIEW_MODEL") with
          | Some m => if negb (str_eqb m []) then dict_set (dict_set c1 (s2l "api_key") (opt_json key)) (s2l "model") (JStr m)
                      else dict_set c1 (s2l "api_key") (opt_json key)
          | None => dict_set c1 (s2l "api_key") (opt_json key)
          end.
Proof.
  intros env f cfg H; unfold load_config in H.
  destruct (_load_config_file f) as [fc | e] eqn:E1; simpl in H; [| discriminate].
  destruct (_apply_provider_defaults _) as [c1 | e] eqn:E2; simpl in H; [| discriminate].
  destruct (_get_api_key env c1) as [key | e] eqn:E3; simpl in H; [| discriminate].
  exists fc, c1, key; repeat split; auto.
  - apply (apply_provider_defaults_nodup _ _ (proj1 (dict_update_facts fc _ default_config_nodup)) E2).
  - destruct (env (s2l "CODEREVIEW_MODEL")) as [m |]; [destruct (negb (str_eqb m [])) |]; now inversion H.
Qed.

Lemma load_config_nodup : forall env f cfg, load_config env f = Ok cfg -> NoDup (map fst cfg).
Proof.
  intros env f cfg H; destruct (load_config_shape env f cfg H) as (fc & c1 & key & _ & _ & Hn & _ & ->).
  destruct (env (s2l "CODEREVIEW_MODEL")) as [m |]; [destruct (negb (str_eqb m [])) |];
    repeat apply dict_set_nodup; exact Hn.
Qed.

(** Where the [api_key] of a loaded configuration comes from. *)
Lemma load_config_api_key_env : forall env f cfg,
  load_config env f = Ok cfg ->
  (obj_get cfg (s2l "api_key") = Some JNull \/
   exists name v, env name = Some v /\ strip v <> [] /\
                  obj_get cfg (s2l "api_key") = Some (JStr (strip v))) /\
  (forall v, env (s2l "CODEREVIEW_API_KEY") = Some v -> strip v <> [] ->
             obj_get cfg (s2l "api_key") = Some (JStr (strip v))).
Proof.
  intros env f cfg H; destruct (load_config_shape env f cfg H) as (fc & c1 & key & _ & _ & Hn & Hk & Hc).
  assert (Hget : obj_get cfg (s2l "api_key") = Some (opt_json key)).
  { rewrite Hc; destruct (env (s2l "CODEREVIEW_MODEL")) as [m |]; [destruct (negb (str_eqb m [])) |];
      rewrite ?obj_get_set_other by discriminate; now apply obj_get_set_same. }
  rewrite Hget; split.
  - destruct key as [k |]; [right | now left].
    destruct (get_api_key_origin _ _ _ Hk) as (name & v & Hv & -> & Hs); eauto.
  - intros v Hv Hs; rewrite (get_api_key_override env c1 v Hv Hs) in Hk.
    now inversion Hk.
Qed.

Lemma apply_overrides_api_key : forall c m p c',
  apply_overrides c m p = Ok c' -> obj_get c' (s2l "api_key") = obj_get c (s2l "api_key").
Proof.
  intros c m p c' H; unfold apply_overrides in H.
  assert (Hm : obj_get (match m with
                        | Some m => if negb (str_eqb m []) then dict_set c (s2l "model") (JStr m) else c
                        | None => c end) (s2l "api_key") = obj_get c (s2l "api_key")).
  { destruct m as [m |]; [destruct (negb (str_eqb m [])) |]; try reflexivity.
    now apply obj_get_set_other. }
  destruct p as [p |]; [destruct (negb (str_eqb p [])) |]; try (inversion H; subst; exact Hm).
  destruct (obj_get _ (s2l "base_url")); inversion H; subst.
  rewrite !obj_get_set_other by discriminate; exact Hm.
Qed.

Lemma apply_overrides_nodup : forall c m p c',
  NoDup (map fst c) -> apply_overrides c m p = Ok c' -> NoDup (map fst c').
Proof.
  intros c m p c' Hc H; unfold apply_overrides in H.
  destruct m as [m |]; [destruct (negb (str_eqb m [])) |];
  destruct p as [p |]; try destruct (negb (str_eqb p [])); 
  try destruct (obj_get _ (s2l "base_url")); inversion H; subst;
  repeat apply dict_set_nodup; exact Hc.
Qed.

Lemma obj_get_set_cond : forall (b : bool) d k' v k,
  NoDup (map fst d) ->
  obj_get (if b then dict_set d k' v else d) k = if b && str_eqb k' k then Some v else obj_get d k.
Proof.
  intros [|] d k' v k Hd; simpl; [| reflexivity].
  destruct (str_eqb k' k) eqn:E.
  - apply str_eqb_eq in E; subst; now apply obj_get_set_same.
  - apply str_eqb_false in E; now apply obj_get_set_other.
Qed.

Lemma nodup_set_cond : forall (b : bool) d k v,
  NoDup (map fst d) -> NoDup (map fst (if b then dict_set d k v else d)).
Proof. intros [|] d k v H; [now apply dict_set_nodup | exact H]. Qed.

(** [_apply_provider_defaults] for a known provider: the base URL and the
    model are replaced unless set to something else than the OpenAI
    defaults. *)
Lemma apply_provider_defaults_spec : forall c p d,
  NoDup (map fst c) ->
  obj_get c (s2l "provider") = Some (JStr p) -> provider_lookup p = Some d ->
  exists c', _apply_provider_defaults c = Ok c' /\ NoDup (map fst c') /\
    obj_get c' (s2l "base_url") = Some (kept_or (obj_get c (s2l "base_url")) DEFAULT_BASE_URL (pd_base_url d)) /\
    obj_get c' (s2l "model") = Some (kept_or (obj_get c (s2l "model")) DEFAULT_MODEL (pd_model d)) /\
    (forall k, k <> s2l "base_url" -> k <> s2l "model" -> obj_get c' k = obj_get c k).
Proof.
  intros c p d Hn Hp Hl.
  unfold _apply_provider_defaults, obj_get_default at 1; rewrite Hp; cbn [provider_in bind].
  rewrite Hl; cbv zeta.
  eexists; split; [reflexivity |].
  assert (Hbm : str_eqb (s2l "base_url") (s2l "model") = false) by reflexivity.
  assert (Hmb : str_eqb (s2l "model") (s2l "base_url") = false) by reflexivity.
  unfold obj_get_default.
  rewrite (obj_get_set_cond _ c (s2l "base_url") _ (s2l "model") Hn), Hbm, andb_false_r.
  split; [apply nodup_set_cond, nodup_set_cond, Hn |].
  assert (Hbb : str_eqb (s2l "base_url") (s2l "base_url") = true) by reflexivity.
  assert (Hmm : str_eqb (s2l "model") (s2l "model") = true) by reflexivity.
  split; [| split].
  - rewrite !obj_get_set_cond by (apply nodup_set_cond, Hn || exact Hn).
    rewrite Hmb, Hbb, andb_false_r, andb_true_r.
    unfold kept_or; destruct (obj_get c (s2l "base_url")) as [v |]; [| reflexivity].
    destruct (truthy v), (is_str_eq v DEFAULT_BASE_URL); reflexivity.
  - rewrite !obj_get_set_cond by (apply nodup_set_cond, Hn || exact Hn).
    rewrite Hmm, Hbm, andb_false_r, andb_true_r.
    unfold kept_or; destruct (obj_get c (s2l "model")) as [v |]; [| reflexivity].
    destruct (truthy v), (is_str_eq v DEFAULT_MODEL); reflexivity.
  - intros k Hb Hm; apply str_eqb_false in Hb, Hm.
    rewrite str_eqb_sym in Hb, Hm.
    rewrite !obj_get_set_cond by (apply nodup_set_cond, Hn || exact Hn).
    rewrite Hb, Hm, !andb_false_r; reflexivity.
Qed.

Lemma load_config_ok_of : forall env f fc c1 k,
  _load_config_file f = Ok fc ->
  _apply_provider_defaults (dict_update DEFAULT_CONFIG fc) = Ok c1 ->
  _get_api_key env c1 = Ok k ->
  load_config env f =
  Ok (match env (s2l "CODEREVIEW_MODEL") with
      | Some m => if negb (str_eqb m []) then dict_set (dict_set c1 (s2l "api_key") (opt_json k)) (s2l "model") (JStr m)
                  else dict_set c1 (s2l "api_key") (opt_json k)
      | None => dict_set c1 (s2l "api_key") (opt_json k)
      end).
Proof.
  intros env f fc c1 k H1 H2 H3; unfold load_config; rewrite H1; cbn [bind].
  rewrite H2; cbn [bind]; rewrite H3; cbn [bind].
  destruct (env (s2l "CODEREVIEW_MODEL")) as [m |]; [destruct (negb (str_eqb m [])) |]; reflexivity.
Qed.

(** The configuration steps of [main] after [load_config], when the
    loaded configuration has no key and the [openai] provider. *)
Lemma main_tail_no_key : forall c p,
  NoDup (map fst c) -> obj_get c (s2l "api_key") = Some JNull ->
  obj_get c (s2l "base_url") <> None -> obj_get c (s2l "provider") = Some (JStr (s2l "openai")) ->
  p <> s2l "ollama" ->
  match apply_overrides c None (Some p) with
  | Raise e => CRaise (PyExn e)
  | Ok config =>
      match validate_api_key (obj_get_default config (s2l "api_key") JNull)
              (obj_get_default config (s2l "provider") (JStr (s2l "openai"))) with
      | CRaise e => CRaise e
      | COk _ => COk config
      end
  end = CRaise (ConfigError NoApiKey).
Proof.
  intros c p Hn Ha Hb Hp Ho; unfold apply_overrides; cbv zeta.
  destruct (negb (str_eqb p [])) eqn:Ep.
  - rewrite obj_get_set_other by discriminate.
    destruct (obj_get c (s2l "base_url")) as [cur |]; [| contradiction].
    unfold obj_get_default.
    rewrite !obj_get_set_other by discriminate.
    rewrite obj_get_set_same by exact Hn; rewrite ?obj_get_set_other by discriminate; rewrite Ha.
    unfold validate_api_key; simpl is_str_eq.
    apply str_eqb_false in Ho; rewrite Ho; reflexivity.
  - unfold obj_get_default; rewrite Ha, Hp; reflexivity.
Qed.

Lemma main_config_key_origin : forall env f model provider cfg,
  main_config env f model provider = COk cfg ->
  obj_get_default cfg (s2l "provider") (JStr (s2l "openai")) = JStr (s2l "ollama") \/
  exists k, obj_get cfg (s2l "api_key") = Some (JStr k) /\ (10 <= List.length k)%nat /\
            exists name v, env name = Some v /\ k = strip v.
Proof.
  intros env f model provider cfg H; unfold main_config in H.
  destruct (load_config env f) as [c | e] eqn:E1; [| discriminate].
  destruct (apply_overrides c model provider) as [c' | e] eqn:E2; [| discriminate].
  destruct (validate_api_key _ _) as [b | e] eqn:E3; inversion H; subst c'; clear H.
  unfold validate_api_key in E3.
  destruct (is_str_eq (obj_get_default cfg (s2l "provider") (JStr (s2l "openai"))) (s2l "ollama")) eqn:Eo.
  - left; destruct (obj_get_default _ _ _); try discriminate; simpl in Eo.
    now apply str_eqb_eq in Eo as ->.
  - right.
    set (prov := obj_get_default cfg (s2l "provider") (JStr (s2l "openai"))) in E3.
    unfold obj_get_default in E3; rewrite (apply_overrides_api_key _ _ _ _ E2) in E3 |- *.
    destruct (load_config_api_key_env env f c E1) as [[Hk | (name & v & Hv & Hs & Hk)] _];
      rewrite Hk in E3 |- *.
    + simpl in E3; destruct prov; discriminate.
    + destruct (str_eqb (strip v) []) eqn:Es; [apply str_eqb_eq in Es; contradiction |].
      simpl in E3; rewrite Es in E3; simpl in E3.
      destruct (Z.of_nat (List.length (strip v)) <? 10) eqn:El; [discriminate |].
      apply Z.ltb_ge in El; exists (strip v); repeat split; [lia |]; eauto.
Qed.

(** [load_config] and the config file: a file that is not valid JSON, or
    that cannot be opened or read, is the same as no file; a file holding
    a JSON list raises TypeError and one holding another non-object value
    AttributeError; a file that is not UTF-8 raises ValueError; without a
    file [load_config] never raises. *)
Theorem load_config_file_outcomes : forall env s,
  (json_loads s = Raise JSONDecodeError -> load_config env (ConfigFileText s) = load_config env NoConfigFile) /\
  (forall xs, json_loads s = Ok (JArr xs) -> load_config env (ConfigFileText s) = Raise TypeError) /\
  (forall v, json_loads s = Ok v -> (forall kvs, v <> JObj kvs) -> (forall xs, v <> JArr xs) ->
             load_config env (ConfigFileText s) = Raise AttributeError) /\
  load_config env UnreadableConfigFile = load_config env NoConfigFile /\
  load_config env UndecodableConfigFile = Raise ValueError /\
  exists cfg, load_config env NoConfigFile = Ok cfg.
Proof.
  intros env s; split; [| split; [| split; [| split; [| split]]]].
  - intros H; unfold load_config, _load_config_file; rewrite H; reflexivity.
  - intros xs H; unfold load_config, _load_config_file; rewrite H; reflexivity.
  - intros v H Ho Ha; unfold load_config, _load_config_file; rewrite H.
    destruct v; try reflexivity;
      first [exfalso; eapply Ha; reflexivity | exfalso; eapply Ho; reflexivity].
  - reflexivity.
  - reflexivity.
  - destruct (_apply_provider_defaults (dict_update DEFAULT_CONFIG [])) as [c1 | e] eqn:E;
      [| vm_compute in E; discriminate].
    assert (Hp : obj_get c1 (s2l "provider") = Some (JStr (s2l "openai")))
      by (vm_compute in E; inversion E; reflexivity).
    destruct (get_api_key_str_provider env c1 _ Hp) as [k Hk].
    eexists; exact (load_config_ok_of env NoConfigFile [] c1 k eq_refl E Hk).
Qed.

Lemma load_config_file_outcomes_witness :
  load_config key_env (ConfigFileText (s2l "[]")) = Raise TypeError.
Proof.
  apply (proj1 (proj2 (load_config_file_outcomes key_env (s2l "[]"))) []).
  vm_compute; reflexivity.
Defined.

(** The API key of a loaded configuration never comes from the config
    file: it is [None] (JSON null) or the stripped value of a non-blank
    environment variable, and a non-blank [CODEREVIEW_API_KEY] wins. *)
Theorem load_config_api_key : forall env f cfg,
  load_config env f = Ok cfg ->
  (obj_get cfg (s2l "api_key") = Some JNull \/
   exists name v, env name = Some v /\ strip v <> [] /\
                  obj_get cfg (s2l "api_key") = Some (JStr (strip v))) /\
  (forall v, env (s2l "CODEREVIEW_API_KEY") = Some v -> strip v <> [] ->
             obj_get cfg (s2l "api_key") = Some (JStr (strip v))).
Proof. exact load_config_api_key_env. Qed.

Lemma load_config_api_key_witness :
  exists cfg, load_config key_env (ConfigFileText groq_file) = Ok cfg /\
  ((obj_get cfg (s2l "api_key") = Some JNull \/
    exists name v, key_env name = Some v /\ strip v <> [] /\
                   obj_get cfg (s2l "api_key") = Some (JStr (strip v))) /\
   (forall v, key_env (s2l "CODEREVIEW_API_KEY") = Some v -> strip v <> [] ->
              obj_get cfg (s2l "api_key") = Some (JStr (strip v)))).
Proof.
  destruct (load_config key_env (ConfigFileText groq_file)) as [cfg | e] eqn:E;
    [| vm_compute in E; discriminate].
  exists cfg; split; [reflexivity |]; exact (load_config_api_key key_env _ cfg E).
Defined.

(** A non-empty [CODEREVIEW_MODEL] is the model of the loaded
    configuration, whatever the config file says. *)
Theorem load_config_env_model : forall env f cfg m,
  load_config env f = Ok cfg ->
  env (s2l "CODEREVIEW_MODEL") = Some m -> m <> [] ->
  obj_get cfg (s2l "model") = Some (JStr m).
Proof.
  intros env f cfg m H Hm Hne.
  destruct (load_config_shape env f cfg H) as (fc & c1 & key & _ & _ & Hn & _ & Hc).
  destruct (str_eqb m []) eqn:E; [apply str_eqb_eq in E; contradiction |].
  rewrite Hc, Hm, E; cbn [negb].
  apply obj_get_set_same, dict_set_nodup, Hn.
Qed.

Lemma load_config_env_model_witness :
  exists cfg, load_config model_env (ConfigFileText groq_file) = Ok cfg /\
              obj_get cfg (s2l "model") = Some (JStr (s2l "gpt-4o")).
Proof.
  destruct (load_config model_env (ConfigFileText groq_file)) as [cfg | e] eqn:E;
    [| vm_compute in E; discriminate].
  exists cfg; split; [reflexivity |].
  apply (load_config_env_model model_env _ cfg _ E); [reflexivity | discriminate].
Defined.

(** A config file that is a JSON object naming a known provider loads
    (without [CODEREVIEW_MODEL]) to that provider, with the file's base URL
    and model kept when set, truthy and not the OpenAI defaults, and the
    provider's ones otherwise. *)
Theorem load_config_provider_defaults : forall env s kvs p d,
  json_loads s = Ok (JObj kvs) ->
  obj_get kvs (s2l "provider") = Some (JStr p) ->
  provider_lookup p = Some d ->
  env (s2l "CODEREVIEW_MODEL") = None ->
  exists cfg, load_config env (ConfigFileText s) = Ok cfg /\
    obj_get cfg (s2l "provider") = Some (JStr p) /\
    obj_get cfg (s2l "base_url") = Some (kept_or (obj_get kvs (s2l "base_url")) DEFAULT_BASE_URL (pd_base_url d)) /\
    obj_get cfg (s2l "model") = Some (kept_or (obj_get kvs (s2l "model")) DEFAULT_MODEL (pd_model d)).
Proof.
  intros env s kvs p d Hj Hp Hl Hm.
  assert (Hf : _load_config_file (ConfigFileText s) = Ok (dict_pop (dict_update [] kvs) (s2l "api_key")))
    by (unfold _load_config_file; rewrite Hj; reflexivity).
  destruct (file_dict_facts kvs) as [Hfn Hfg].
  destruct (dict_update_facts (dict_pop (dict_update [] kvs) (s2l "api_key")) DEFAULT_CONFIG default_config_nodup)
    as [H0n H0g].
  assert (Hc0 : forall k, str_eqb (s2l "api_key") k = false ->
            obj_get (dict_update DEFAULT_CONFIG (dict_pop (dict_update [] kvs) (s2l "api_key"))) k =
            match obj_get kvs k with Some w => Some w | None => obj_get DEFAULT_CONFIG k end).
  { intros k Hk; rewrite H0g, Hfg, Hk; reflexivity. }
  assert (Hp0 : obj_get (dict_update DEFAULT_CONFIG (dict_pop (dict_update [] kvs) (s2l "api_key")))
                        (s2l "provider") = Some (JStr p))
    by (rewrite Hc0 by reflexivity; now rewrite Hp).
  destruct (apply_provider_defaults_spec _ p d H0n Hp0 Hl) as (c1 & Ha & Hn1 & Hb1 & Hm1 & Ho1).
  assert (Hp1 : obj_get c1 (s2l "provider") = Some (JStr p))
    by (rewrite Ho1 by discriminate; exact Hp0).
  destruct (get_api_key_str_provider env c1 p Hp1) as [k Hk].
  exists (dict_set c1 (s2l "api_key") (opt_json k)).
  rewrite (load_config_ok_of env _ _ c1 k Hf Ha Hk), Hm; split; [reflexivity |].
  rewrite !obj_get_set_other by discriminate; split; [exact Hp1 |].
  rewrite Hb1, Hm1, !Hc0 by reflexivity; split.
  - destruct (obj_get kvs (s2l "base_url")); reflexivity.
  - destruct (obj_get kvs (s2l "model")); reflexivity.
Qed.

Lemma load_config_provider_defaults_witness :
  exists cfg, load_config groq_env (ConfigFileText groq_file) = Ok cfg /\
    obj_get cfg (s2l "provider") = Some (JStr (s2l "groq")) /\
    obj_get cfg (s2l "base_url") = Some (JStr (s2l "https://api.groq.com/openai/v1")) /\
    obj_get cfg (s2l "model") = Some (JStr (s2l "mixtral")).
Proof.
  destruct (json_loads groq_file) as [v | e] eqn:Ej; [| vm_compute in Ej; discriminate].
  destruct v as [| | | | | | kvs]; try (vm_compute in Ej; discriminate).
  destruct (provider_lookup (s2l "groq")) as [d |] eqn:El; [| vm_compute in El; discriminate].
  destruct (load_config_provider_defaults groq_env groq_file kvs (s2l "groq") d Ej)
    as (cfg & H1 & H2 & H3 & H4);
    [vm_compute in Ej; inversion Ej; reflexivity | exact El | reflexivity |].
  exists cfg; vm_compute in Ej, El; inversion Ej; inversion El; subst.
  split; [exact H1 | split; [exact H2 | split; [rewrite H3 | rewrite H4]; reflexivity]].
Defined.

(** The configuration [main] goes on with has the provider [ollama] or an
    API key of at least 10 code points, the stripped value of an
    environment variable. *)
Theorem main_config_accepted_key : forall env f model provider cfg,
  main_config env f model provider = COk cfg ->
  obj_get_default cfg (s2l "provider") (JStr (s2l "openai")) = JStr (s2l "ollama") \/
  exists k, obj_get cfg (s2l "api_key") = Some (JStr k) /\ (10 <= List.length k)%nat /\
            exists name v, env name = Some v /\ k = strip v.
Proof. exact main_config_key_origin. Qed.

Lemma main_config_accepted_key_witness :
  exists cfg, main_config key_env NoConfigFile None None = COk cfg /\
  (obj_get_default cfg (s2l "provider") (JStr (s2l "openai")) = JStr (s2l "ollama") \/
   exists k, obj_get cfg (s2l "api_key") = Some (JStr k) /\ (10 <= List.length k)%nat /\
             exists name v, key_env name = Some v /\ k = strip v).
Proof.
  destruct (main_config key_env NoConfigFile None None) as [cfg | e] eqn:E;
    [| vm_compute in E; discriminate].
  exists cfg; split; [reflexivity |]; exact (main_config_accepted_key _ _ _ _ cfg E).
Defined.



(** [apply_overrides] with [--provider p]: without a [base_url] entry it
    raises KeyError; otherwise it sets the provider and, for a known
    provider, its base URL, and leaves every other entry, the model and
    the API key included, as it was. *)
Theorem apply_overrides_provider : forall cfg model p,
  p <> [] ->
  (obj_get cfg (s2l "base_url") = None -> apply_overrides cfg model (Some p) = Raise KeyError) /\
  (forall d, provider_lookup p = Some d -> obj_get cfg (s2l "base_url") <> None ->
     NoDup (map fst cfg) ->
     exists cfg', apply_overrides cfg None (Some p) = Ok cfg' /\
       obj_get cfg' (s2l "provider") = Some (JStr p) /\
       obj_get cfg' (s2l "base_url") = Some (JStr (pd_base_url d)) /\
       forall k, k <> s2l "provider" -> k <> s2l "base_url" -> obj_get cfg' k = obj_get cfg k).
Proof.
  intros cfg model p Hp; apply str_eqb_false in Hp; split.
  - intros Hb; unfold apply_overrides.
    destruct model as [m |]; [destruct (negb (str_eqb m [])) |]; cbv beta iota zeta;
      rewrite Hp; cbn [negb]; rewrite !obj_get_set_other by discriminate; rewrite Hb; reflexivity.
  - intros d Hl Hb Hn; unfold apply_overrides; cbv beta iota zeta; rewrite Hp; cbn [negb].
    rewrite obj_get_set_other by discriminate.
    destruct (obj_get cfg (s2l "base_url")) as [cur |]; [| contradiction].
    rewrite Hl; eexists; split; [reflexivity |].
    split; [| split].
    + rewrite obj_get_set_other by discriminate; now apply obj_get_set_same.
    + now apply obj_get_set_same, dict_set_nodup.
    + intros k H1 H2; rewrite !obj_get_set_other; auto.
Qed.

Lemma apply_overrides_provider_witness :
  exists cfg', apply_overrides DEFAULT_CONFIG None (Some (s2l "groq")) = Ok cfg' /\
    obj_get cfg' (s2l "model") = Some (JStr DEFAULT_MODEL) /\
    obj_get cfg' (s2l "base_url") = Some (JStr (s2l "https://api.groq.com/openai/v1")).
Proof.
  destruct (provider_lookup (s2l "groq")) as [d |] eqn:El; [| vm_compute in El; discriminate].
  destruct (proj2 (apply_overrides_provider DEFAULT_CONFIG None (s2l "groq") ltac:(discriminate))
              d El ltac:(vm_compute; discriminate) default_config_nodup) as (c' & H1 & _ & H3 & H4).
  exists c'; split; [exact H1 | split].
  - rewrite H4 by discriminate; reflexivity.
  - rewrite H3; vm_compute in El; inversion El; reflexivity.
Defined.

End ConfigProofs.

(* ================================================================= *)
(** * [formatter.py]: what [print_review] shows *)

Module FormatterProofs.
Import Reviewer ReviewEntry GitMore Formatter Fixtures ExtraFixtures EntryProofs GitProofs.

Lemma review_code_score : forall post code config is_diff st r st',
  review_code post code config is_diff st = (Ok r, st') -> 0 <= score r <= 10.
Proof.
  intros post code config is_diff st r st' H; unfold review_code in H.
  destruct (_validate_code_input code) as [clean | e]; [| discriminate].
  destruct (call_llm _ _ _ _) as [[raw | e] st1]; [| discriminate].
  destruct raw; try discriminate.
  destruct (parse_review_response s) as [r0 | e] eqn:Hp; inversion H; subst; clear H.
  apply parse_review_response_ok in Hp as [Hs _]; exact Hs.
Qed.

Lemma length_concat_repeat : forall (c : pystr) n,
  List.length (List.concat (repeat c n)) = (n * List.length c)%nat.
Proof. intros c n; induction n as [| n IH]; simpl; [reflexivity | rewrite length_app, IH; lia]. Qed.

Lemma score_color_in_range : forall s, 0 <= s <= 10 -> get_score_color s <> s2l "white".
Proof.
  intros s Hs.
  assert (s = 0 \/ s = 1 \/ s = 2 \/ s = 3 \/ s = 4 \/ s = 5 \/ s = 6 \/ s = 7 \/ s = 8 \/ s = 9 \/ s = 10)
    as Hc by lia.
  repeat destruct Hc as [-> | Hc]; try subst s; intro H; vm_compute in H; discriminate H.
Qed.

Lemma in_issues_of : forall s r i, In i (issues_of s r) -> severity i = s.
Proof.
  intros s r i H; apply filter_In in H as [_ H].
  destruct (severity i), s; simpl in H; congruence.
Qed.

Lemma insert_front : forall {A} (key : A -> Z) x l,
  (forall y, In y l -> key x <= key y) -> insert_by key x l = x :: l.
Proof.
  intros A key x [| y l] H; simpl; [reflexivity |].
  replace (key x <=? key y) with true; [reflexivity |].
  symmetry; apply Z.leb_le, H; now left.
Qed.

Lemma insert_skip : forall {A} (key : A -> Z) x L R,
  (forall y, In y L -> key y < key x) -> insert_by key x (L ++ R) = L ++ insert_by key x R.
Proof.
  intros A key x L R H; induction L as [| y L IH]; simpl; [reflexivity |].
  replace (key x <=? key y) with false.
  - rewrite IH; [reflexivity | intros z Hz; apply H; now right].
  - symmetry; apply Z.leb_gt, H; now left.
Qed.

Lemma in_sev_block : forall s l i, In i (sev_block s l) -> severity i = s.
Proof.
  intros s l i H; apply filter_In in H as [_ H].
  destruct (severity i), s; simpl in H; congruence.
Qed.

Lemma sev_block_cons : forall s x l,
  sev_block s (x :: l) =
  if severity_eqb (severity x) s then x :: sev_block s l else sev_block s l.
Proof. reflexivity. Qed.

Lemma py_sorted_severity_blocks : forall l,
  py_sorted (fun i => severity_index (severity i)) l =
  sev_block CRITICAL l ++ sev_block WARNING l ++ sev_block INFO l ++ sev_block STYLE l.
Proof.
  induction l as [| x l IH]; [reflexivity |].
  cbn [py_sorted]; rewrite IH, !sev_block_cons.
  assert (Hk : forall s y, In y (sev_block s l) -> severity_index (severity y) = severity_index s)
    by (intros s y Hy; now rewrite (in_sev_block s l y Hy)).
  destruct (severity x) eqn:Ex; cbn [severity_eqb];
    repeat (rewrite insert_skip by
      (intros y Hy; cbv beta; rewrite Ex, (Hk _ y Hy); simpl; lia));
    rewrite insert_front; try reflexivity;
    intros y Hy; cbv beta; rewrite Ex;
    repeat (apply in_app_or in Hy as [Hy | Hy]); rewrite (Hk _ y Hy); simpl; lia.
Qed.

Lemma severity_counts_fold : forall l a b d e,
  fold_left (fun c i =>
               let '(a, b, d, e) := c in
               match severity i with
               | CRITICAL => (a + 1, b, d, e)
               | WARNING => (a, b + 1, d, e)
               | INFO => (a, b, d + 1, e)
               | STYLE => (a, b, d, e + 1)
               end) l (a, b, d, e) =
  (a + Z.of_nat (List.length (sev_block CRITICAL l)), b + Z.of_nat (List.length (sev_block WARNING l)),
   d + Z.of_nat (List.length (sev_block INFO l)), e + Z.of_nat (List.length (sev_block STYLE l))).
Proof.
  unfold sev_block; induction l as [| x l IH]; intros a b d e; cbn [fold_left filter].
  - cbn [Datatypes.length Z.of_nat]; now rewrite !Z.add_0_r.
  - destruct (severity x); cbn [severity_eqb]; rewrite IH; cbn [Datatypes.length];
      rewrite ?Nat2Z.inj_succ;
      repeat match goal with |- (_, _) = (_, _) => f_equal end; lia.
Qed.

Lemma sev_blocks_length : forall l,
  List.length l = (List.length (sev_block CRITICAL l) + List.length (sev_block WARNING l) +
                   List.length (sev_block INFO l) + List.length (sev_block STYLE l))%nat.
Proof.
  unfold sev_block; induction l as [| x l IH]; simpl; [reflexivity |].
  destruct (severity x); simpl; lia.
Qed.

(** The score line of [print_review] for a result of [review_code]: the
    bar is 10 cells, [score] full ones then light ones; each cell literal
    is three code points in the source file, so the bar is 30 code points
    long.  The colour is one of the table's, never the [white] fallback. *)
Theorem review_score_display : forall post code config is_diff st r st',
  review_code post code config is_diff st = (Ok r, st') ->
  get_score_bar (score r) =
    List.concat (repeat FULL_CELL (Z.to_nat (score r)) ++ repeat LIGHT_CELL (10 - Z.to_nat (score r))) /\
  List.length (get_score_bar (score r)) = 30%nat /\
  get_score_color (score r) <> s2l "white".
Proof.
  intros post code config is_diff st r st' H.
  pose proof (review_code_score _ _ _ _ _ _ _ H) as Hs.
  assert (Hb : get_score_bar (score r) =
    List.concat (repeat FULL_CELL (Z.to_nat (score r)) ++ repeat LIGHT_CELL (10 - Z.to_nat (score r)))).
  { unfold get_score_bar, str_mul; rewrite concat_app, Z2Nat.inj_sub by lia; reflexivity. }
  split; [exact Hb | split; [| now apply score_color_in_range]].
  rewrite Hb, concat_app, length_app, !length_concat_repeat.
  cbn [FULL_CELL LIGHT_CELL Datatypes.length].
  assert (Z.to_nat (score r) <= 10)%nat by lia; lia.
Qed.

Lemma review_score_display_witness :
  exists r st', review_code (ok_post "{\'score\': 12}") (s2l "x = 1") [] false st_empty = (Ok r, st') /\
  get_score_bar (score r) =
    List.concat (repeat FULL_CELL (Z.to_nat (score r)) ++ repeat LIGHT_CELL (10 - Z.to_nat (score r))) /\
  List.length (get_score_bar (score r)) = 30%nat /\
  get_score_color (score r) <> s2l "white".
Proof.
  destruct (review_code (ok_post "{\'score\': 12}") (s2l "x = 1") [] false st_empty)
    as [[r | e] st'] eqn:E; [| vm_compute in E; discriminate E].
  exists r, st'; split; [reflexivity |]; exact (review_score_display _ _ _ _ _ r st' E).
Defined.

(** [print_review] lists the issues by severity, critical ones first, then
    warnings, infos and style remarks, each group in the order the model
    returned it. *)
Theorem sorted_issues_by_severity : forall r,
  sorted_issues r = issues_of CRITICAL r ++ issues_of WARNING r ++ issues_of INFO r ++ issues_of STYLE r.
Proof. intros r; unfold sorted_issues; apply py_sorted_severity_blocks. Qed.

(** The counts line of [print_review] counts every issue once under its
    severity, and is printed exactly when there is an issue. *)
Theorem severity_counts_spec : forall r,
  let '(c, w, i, s) := severity_counts r in
  c = Z.of_nat (List.length (issues_of CRITICAL r)) /\
  w = Z.of_nat (List.length (issues_of WARNING r)) /\
  i = Z.of_nat (List.length (issues_of INFO r)) /\
  s = Z.of_nat (List.length (issues_of STYLE r)) /\
  c + w + i + s = Z.of_nat (List.length (issues r)) /\
  (shows_counts r = true <-> issues r <> []).
Proof.
  intros r; unfold shows_counts, severity_counts.
  rewrite severity_counts_fold.
  unfold issues_of; fold (sev_block CRITICAL (issues r)) (sev_block WARNING (issues r))
    (sev_block INFO (issues r)) (sev_block STYLE (issues r)).
  pose proof (sev_blocks_length (issues r)) as Hl.
  assert (Hlen : issues r <> [] <-> (0 < List.length (issues r))%nat)
    by (destruct (issues r); simpl; split; intros; try lia; congruence).
  rewrite Hlen, Hl; clear Hlen Hl.
  generalize (List.length (sev_block STYLE (issues r))) as n4.
  generalize (List.length (sev_block INFO (issues r))) as n3.
  generalize (List.length (sev_block WARNING (issues r))) as n2.
  generalize (List.length (sev_block CRITICAL (issues r))) as n1.
  intros n1 n2 n3 n4; cbv beta iota zeta.
  repeat split; lia.
Qed.

Lemma severity_counts_spec_witness :
  let '(c, w, i, s) := severity_counts sample_review in
  c = Z.of_nat (List.length (issues_of CRITICAL sample_review)) /\
  w = Z.of_nat (List.length (issues_of WARNING sample_review)) /\
  i = Z.of_nat (List.length (issues_of INFO sample_review)) /\
  s = Z.of_nat (List.length (issues_of STYLE sample_review)) /\
  c + w + i + s = Z.of_nat (List.length (issues sample_review)) /\
  (shows_counts sample_review = true <-> issues sample_review <> []).
Proof. exact (severity_counts_spec sample_review). Defined.

End FormatterProofs.
